(** * Aspect/opinion span decoding of the sentiment-analysis demo

    A shallow embedding of [decoding] from
    [applications/sentiment_analysis/demo.py], with the properties its
    specification states about it.

    Python values are modelled as follows.
    - A [str] is a list of Unicode code points ([N]); indexing and slicing a
      Python 3 string work on code points, and half of the punctuation set
      lies outside ASCII.
    - Tags and entity labels are plain ASCII labels, kept as [string].
    - A [list] is a [list]; the in-place updates of the script ([append],
      [extend], [clear], [insert]) become explicit state passing: each loop
      is a [fold_left] over the state its body updates.
    - Slices follow Python's rules, negative and out-of-range bounds
      included. *)

From Stdlib Require Import Ascii String.
From Stdlib Require Import List ZArith NArith Lia Bool.
From Stdlib Require Sorted.
From Stdlib Require Import Permutation.
From Stdlib Require Import Decimal DecimalString DecimalNat.
Import ListNotations.

(** ** Python primitives *)

Module Py.

Definition char := N.
Definition str := list char.

(** A literal made of ASCII characters. *)
Definition lit (s : string) : str := map N_of_ascii (list_ascii_of_string s).

(** A slice bound, as [PySlice_AdjustIndices] normalises it for a sequence
    of length [len] and step 1. *)
Definition adjust (len i : Z) : Z :=
  if (i <? 0)%Z then Z.max 0 (i + len) else Z.min i len.

(** [l[start:stop]] *)
Definition slice {A : Type} (l : list A) (start stop : Z) : list A :=
  let len := Z.of_nat (length l) in
  let a := adjust len start in
  let b := adjust len stop in
  firstn (Z.to_nat (b - a)) (skipn (Z.to_nat a) l).

(** [l[start:]] *)
Definition slice_from {A : Type} (l : list A) (start : Z) : list A :=
  slice l start (Z.of_nat (length l)).

(** [str(n)] for a length. *)
Definition str_of_nat (n : nat) : string :=
  NilEmpty.string_of_uint (Nat.to_uint n).

End Py.

(** ** The data of the decoder *)

Definition tag := string.

(** An entity as the span extractor returns it: label, first offset, last
    offset (inclusive). *)
Definition entity := (string * Z * Z)%type.

(** An aspect group: the aspect's surface text, then its opinion words. *)
Definition group := list Py.str.

Inductive exn : Type :=
| AssertionError (msg : string).

(** ** Segmentation (demo.py, lines 26-36) *)

(** [puncs = list(",.?;!，。？；！")], as code points. *)
Definition puncs : list Py.char :=
  [44; 46; 63; 59; 33; 65292; 12290; 65311; 65307; 65281]%N.

(** [c in puncs] *)
Definition in_puncs (c : Py.char) : bool := existsb (N.eqb c) puncs.

(** [text[idx] in puncs], for [idx] in [range(len(text))]. *)
Definition punc_at (text : Py.str) (idx : nat) : bool :=
  match nth_error text idx with
  | Some c => in_puncs c
  | None => false
  end.

(** [splits = [idx for idx in range(len(text)) if text[idx] in puncs]] *)
Definition splits (text : Py.str) : list nat :=
  filter (punc_at text) (seq 0 (length text)).

(** The state of the splitting loop: [prev], [sub_texts], [sub_tag_seqs]. *)
Definition split_state := (nat * list Py.str * list (list tag))%type.

(** One turn of [for i, split in enumerate(splits)]. *)
Definition split_step (text : Py.str) (tag_seq : list tag)
    (st : split_state) (split : nat) : split_state :=
  let '(prev, sub_texts, sub_tag_seqs) := st in
  let sub_tag_seqs := sub_tag_seqs ++ [Py.slice tag_seq (Z.of_nat prev) (Z.of_nat split)] in
  let sub_texts := sub_texts ++ [Py.slice text (Z.of_nat prev) (Z.of_nat split)] in
  (split, sub_texts, sub_tag_seqs).

(** The loop and the two [append]s after it: the pair
    [(sub_texts, sub_tag_seqs)]. *)
Definition segments (text : Py.str) (tag_seq : list tag)
    : list Py.str * list (list tag) :=
  let '(prev, sub_texts, sub_tag_seqs) :=
    fold_left (split_step text tag_seq) (splits text) (0, [], []) in
  let sub_tag_seqs := sub_tag_seqs ++ [Py.slice_from tag_seq (Z.of_nat prev)] in
  let sub_texts := sub_texts ++ [Py.slice_from text (Z.of_nat prev)] in
  (sub_texts, sub_tag_seqs).

Definition sub_texts (text : Py.str) (tag_seq : list tag) : list Py.str :=
  fst (segments text tag_seq).

Definition sub_tag_seqs (text : Py.str) (tag_seq : list tag) : list (list tag) :=
  snd (segments text tag_seq).

(** ** Aggregation (demo.py, lines 38-79) *)

(** [groups[-1].extend(ws)].  On an empty [groups] Python raises
    [IndexError]; every call in [decoding] is guarded by a test that
    [groups] is not empty. *)
Definition extend_last (groups : list group) (ws : list Py.str) : list group :=
  match groups with
  | [] => []
  | _ :: _ => removelast groups ++ [last groups [] ++ ws]
  end.

(** [len(l) > 0], or the truth value of a list. *)
Definition nonempty {A : Type} (l : list A) : bool :=
  match l with
  | [] => false
  | _ :: _ => true
  end.

(** One turn of [for ent in ent_list], on the state
    [(sub_aps, sub_no_a_words)].  The loop variable the script calls
    [sub_tag_seq] is the first component of an [ents_list] pair. *)
Definition ent_step (sub_tag_seq : Py.str)
    (st : list group * list Py.str) (ent : entity)
    : list group * list Py.str :=
  let '(sub_aps, sub_no_a_words) := st in
  let '(ent_name, start, end_) := ent in
  if String.eqb ent_name "Aspect" then
    let aspect := Py.slice sub_tag_seq start (end_ + 1) in
    let sub_aps := sub_aps ++ [[aspect]] in
    if nonempty sub_no_a_words
    then (extend_last sub_aps sub_no_a_words, [])
    else (sub_aps, sub_no_a_words)
  else
    let opinion := Py.slice sub_tag_seq start (end_ + 1) in
    if nonempty sub_aps
    then (extend_last sub_aps [opinion], sub_no_a_words)
    else (sub_aps, sub_no_a_words ++ [opinion]).

(** One turn of [for sub_tag_seq, ent_list in ents_list], on the state
    [(aps, no_a_words)]. *)
Definition seg_step (st : list group * list Py.str)
    (seg : Py.str * list entity) : list group * list Py.str :=
  let '(aps, no_a_words) := st in
  let '(sub_tag_seq, ent_list) := seg in
  let '(sub_aps, sub_no_a_words) :=
    fold_left (ent_step sub_tag_seq) ent_list ([], []) in
  if nonempty sub_aps then
    let aps := aps ++ sub_aps in
    if nonempty no_a_words
    then (extend_last aps no_a_words, [])
    else (aps, no_a_words)
  else if nonempty sub_no_a_words then
    if nonempty aps
    then (extend_last aps sub_no_a_words, no_a_words)
    else (aps, no_a_words ++ sub_no_a_words)
  else (aps, no_a_words).

(** The tail of [decoding]: the sentinel group for opinions that never met
    an aspect. *)
Definition finish (st : list group * list Py.str) : list group :=
  let '(aps, no_a_words) := st in
  if nonempty no_a_words
  then aps ++ [Py.lit "None" :: no_a_words]
  else aps.

(** The two loops over segments and the tail, from [ents_list] on. *)
Definition aggregate (ents_list : list (Py.str * list entity)) : list group :=
  finish (fold_left seg_step ents_list ([], [])).

(** The message of the assertion. *)
Definition mismatch_msg (text_len tag_seq_len : nat) : string :=
  ("text len: " ++ Py.str_of_nat text_len
   ++ ", tag_seq len: " ++ Py.str_of_nat tag_seq_len)%string.

Section Decoding.

(** [seqeval]'s span extractor, called with [suffix=False].  It belongs
    to a third-party package the script imports: [decoding] is embedded
    over any extractor. *)
Variable get_entities : list tag -> list entity.

(** [ents_list]: each segment's text with the entities of its tags. *)
Definition ents_list (text : Py.str) (tag_seq : list tag)
    : list (Py.str * list entity) :=
  map (fun '(sub_text, sub_tag_seq) => (sub_text, get_entities sub_tag_seq))
      (combine (sub_texts text tag_seq) (sub_tag_seqs text tag_seq)).

Definition decoding (text : Py.str) (tag_seq : list tag) : exn + list group :=
  if Nat.eqb (length text) (length tag_seq)
  then inr (aggregate (ents_list text tag_seq))
  else inl (AssertionError (mismatch_msg (length text) (length tag_seq))).

End Decoding.

(** ** The span extractor

    The script takes its span extractor from the [seqeval] package; the
    repository holds no code of it.  The theorems on [decoding] are stated
    for any extractor; the one below serves where an input is traced from
    the tags on. *)

Module Seqeval.

(** Modelled from the spec: a tag of the begin/inside/outside scheme, as
    [get_entities] of [seqeval] (not in the repository) reads it off a label
    string. *)
Inductive bio : Type :=
| Begin (label : string)
| Inside (label : string)
| Outside.

(** Modelled from the spec: how [get_entities] of [seqeval] (not in the
    repository) reads a tag, [B-label], [I-label] or outside. *)
Definition parse_tag (t : tag) : bio :=
  match t with
  | String "B" (String "-" label) => Begin label
  | String "I" (String "-" label) => Inside label
  | _ => Outside
  end.

(** The scan state: the index of the next tag, the entity still open (its
    label and begin offset), and the entities closed so far. *)
Definition scan_state := (Z * option (string * Z) * list entity)%type.

(** Modelled from the spec: the end of a run in [get_entities] of [seqeval]
    (not in the repository); the open entity ends on the tag before index
    [i]. *)
Definition close (i : Z) (open : option (string * Z)) (chunks : list entity)
    : list entity :=
  match open with
  | Some (label, begin) => chunks ++ [(label, begin, i - 1)%Z]
  | None => chunks
  end.

(** Modelled from the spec: one tag of the scan of [get_entities] of
    [seqeval] (not in the repository).  A begin tag closes the open entity
    and opens one; an inside tag of the open label goes on with it, any
    other inside tag opens an entity of its own; an outside tag closes the
    open entity. *)
Definition scan_step (st : scan_state) (t : tag) : scan_state :=
  let '(i, open, chunks) := st in
  match parse_tag t with
  | Begin label => (i + 1, Some (label, i), close i open chunks)%Z
  | Inside label =>
      match open with
      | Some (label', _) =>
          if String.eqb label' label
          then (i + 1, open, chunks)%Z
          else (i + 1, Some (label, i), close i open chunks)%Z
      | None => (i + 1, Some (label, i), chunks)%Z
      end
  | Outside => (i + 1, None, close i open chunks)%Z
  end.

(** Modelled from the spec: [get_entities] of the [seqeval] package, which
    the script imports and the repository does not contain.  Outside
    positions are skipped; each maximal run of a begin tag and the inside
    tags of its label that follow is one entity, from the begin position to
    the last inside position. *)
Definition get_entities (seq : list tag) : list entity :=
  let '(i, open, chunks) := fold_left scan_step seq (0%Z, None, []) in
  close i open chunks.

End Seqeval.

(** ** The caller's use of a group (demo.py, lines 142-144) *)

(** [opinion_words = list(set(ap[1:]))]: the words of the group after its
    aspect, each once.  The order in which a Python set is listed is not
    fixed, so this is a relation between the group and the list. *)
Definition opinion_words (ap : group) (words : list Py.str) : Prop :=
  NoDup words /\ forall w, In w words <-> In w (Py.slice_from ap 1).

(** ** [decoding] over its frame of variables

    A second embedding of [decoding], statement by statement, in which the
    variables the function assigns and the lists it updates in place live in
    a frame that is handed from one call to the next.  It is the setting for
    the claim that no state leaks between calls: whatever an earlier call
    left in the frame, a call starts by assigning its variables afresh. *)

Module Frame.

Record frame : Type := mk_frame {
  v_prev : nat;
  v_sub_texts : list Py.str;
  v_sub_tag_seqs : list (list tag);
  v_ents_list : list (Py.str * list entity);
  v_aps : list group;
  v_no_a_words : list Py.str;
  v_sub_aps : list group;
  v_sub_no_a_words : list Py.str
}.

Definition set_prev (x : nat) (fr : frame) : frame :=
  mk_frame x (v_sub_texts fr) (v_sub_tag_seqs fr) (v_ents_list fr)
           (v_aps fr) (v_no_a_words fr) (v_sub_aps fr) (v_sub_no_a_words fr).

Definition set_sub_texts (x : list Py.str) (fr : frame) : frame :=
  mk_frame (v_prev fr) x (v_sub_tag_seqs fr) (v_ents_list fr)
           (v_aps fr) (v_no_a_words fr) (v_sub_aps fr) (v_sub_no_a_words fr).

Definition set_sub_tag_seqs (x : list (list tag)) (fr : frame) : frame :=
  mk_frame (v_prev fr) (v_sub_texts fr) x (v_ents_list fr)
           (v_aps fr) (v_no_a_words fr) (v_sub_aps fr) (v_sub_no_a_words fr).

Definition set_ents_list (x : list (Py.str * list entity)) (fr : frame) : frame :=
  mk_frame (v_prev fr) (v_sub_texts fr) (v_sub_tag_seqs fr) x
           (v_aps fr) (v_no_a_words fr) (v_sub_aps fr) (v_sub_no_a_words fr).

Definition set_aps (x : list group) (fr : frame) : frame :=
  mk_frame (v_prev fr) (v_sub_texts fr) (v_sub_tag_seqs fr) (v_ents_list fr)
           x (v_no_a_words fr) (v_sub_aps fr) (v_sub_no_a_words fr).

Definition set_no_a_words (x : list Py.str) (fr : frame) : frame :=
  mk_frame (v_prev fr) (v_sub_texts fr) (v_sub_tag_seqs fr) (v_ents_list fr)
           (v_aps fr) x (v_sub_aps fr) (v_sub_no_a_words fr).

Definition set_sub_aps (x : list group) (fr : frame) : frame :=
  mk_frame (v_prev fr) (v_sub_texts fr) (v_sub_tag_seqs fr) (v_ents_list fr)
           (v_aps fr) (v_no_a_words fr) x (v_sub_no_a_words fr).

Definition set_sub_no_a_words (x : list Py.str) (fr : frame) : frame :=
  mk_frame (v_prev fr) (v_sub_texts fr) (v_sub_tag_seqs fr) (v_ents_list fr)
           (v_aps fr) (v_no_a_words fr) (v_sub_aps fr) x.

(** [for i, split in enumerate(splits)]: lines 31-34. *)
Definition split_body (text : Py.str) (tag_seq : list tag)
    (fr : frame) (split : nat) : frame :=
  let fr := set_sub_tag_seqs
              (v_sub_tag_seqs fr
               ++ [Py.slice tag_seq (Z.of_nat (v_prev fr)) (Z.of_nat split)]) fr in
  let fr := set_sub_texts
              (v_sub_texts fr
               ++ [Py.slice text (Z.of_nat (v_prev fr)) (Z.of_nat split)]) fr in
  set_prev split fr.

(** [for sub_text, sub_tag_seq in zip(sub_texts, sub_tag_seqs)]: lines 39-41. *)
Definition ents_body (get_entities : list tag -> list entity)
    (fr : frame) (pair : Py.str * list tag) : frame :=
  let '(sub_text, sub_tag_seq) := pair in
  let ents := get_entities sub_tag_seq in
  set_ents_list (v_ents_list fr ++ [(sub_text, ents)]) fr.

(** [for ent in ent_list]: lines 48-62. *)
Definition ent_body (sub_tag_seq : Py.str) (fr : frame) (ent : entity) : frame :=
  let '(ent_name, start, end_) := ent in
  if String.eqb ent_name "Aspect" then
    let aspect := Py.slice sub_tag_seq start (end_ + 1) in
    let fr := set_sub_aps (v_sub_aps fr ++ [[aspect]]) fr in
    if nonempty (v_sub_no_a_words fr) then
      let fr := set_sub_aps (extend_last (v_sub_aps fr) (v_sub_no_a_words fr)) fr in
      set_sub_no_a_words [] fr
    else fr
  else
    let opinion := Py.slice sub_tag_seq start (end_ + 1) in
    if nonempty (v_sub_aps fr)
    then set_sub_aps (extend_last (v_sub_aps fr) [opinion]) fr
    else set_sub_no_a_words (v_sub_no_a_words fr ++ [opinion]) fr.

(** [for sub_tag_seq, ent_list in ents_list]: lines 45-73. *)
Definition seg_body (fr : frame) (seg : Py.str * list entity) : frame :=
  let '(sub_tag_seq, ent_list) := seg in
  let fr := set_sub_aps [] fr in
  let fr := set_sub_no_a_words [] fr in
  let fr := fold_left (ent_body sub_tag_seq) ent_list fr in
  if nonempty (v_sub_aps fr) then
    let fr := set_aps (v_aps fr ++ v_sub_aps fr) fr in
    if nonempty (v_no_a_words fr) then
      let fr := set_aps (extend_last (v_aps fr) (v_no_a_words fr)) fr in
      set_no_a_words [] fr
    else fr
  else if nonempty (v_sub_no_a_words fr) then
    if nonempty (v_aps fr)
    then set_aps (extend_last (v_aps fr) (v_sub_no_a_words fr)) fr
    else set_no_a_words (v_no_a_words fr ++ v_sub_no_a_words fr) fr
  else fr.

(** One call of [decoding] on the frame [fr]: the value returned (or the
    assertion raised) and the frame the call leaves behind. *)
Definition decoding (get_entities : list tag -> list entity) (fr : frame)
    (text : Py.str) (tag_seq : list tag) : (exn + list group) * frame :=
  if negb (Nat.eqb (length text) (length tag_seq)) then
    (inl (AssertionError (mismatch_msg (length text) (length tag_seq))), fr)
  else
    let fr := set_prev 0 fr in
    let fr := set_sub_tag_seqs [] (set_sub_texts [] fr) in
    let fr := fold_left (split_body text tag_seq) (splits text) fr in
    let fr := set_sub_tag_seqs
                (v_sub_tag_seqs fr ++ [Py.slice_from tag_seq (Z.of_nat (v_prev fr))]) fr in
    let fr := set_sub_texts
                (v_sub_texts fr ++ [Py.slice_from text (Z.of_nat (v_prev fr))]) fr in
    let fr := set_ents_list [] fr in
    let fr := fold_left (ents_body get_entities)
                        (combine (v_sub_texts fr) (v_sub_tag_seqs fr)) fr in
    let fr := set_aps [] fr in
    let fr := set_no_a_words [] fr in
    let fr := fold_left seg_body (v_ents_list fr) fr in
    if nonempty (v_no_a_words fr) then
      let fr := set_no_a_words (Py.lit "None" :: v_no_a_words fr) fr in
      let fr := set_aps (v_aps fr ++ [v_no_a_words fr]) fr in
      (inr (v_aps fr), fr)
    else (inr (v_aps fr), fr).

End Frame.

(** ** Notions the statements use *)

(** The pieces of [l] from offset [prev] on, cut at the offsets [sp]: the
    slice [[prev, split)] for each [split] in turn, with [prev] moved to
    [split] after it, and the rest of [l] at the end. *)
Fixpoint cut {A : Type} (l : list A) (prev : nat) (sp : list nat) : list (list A) :=
  match sp with
  | [] => [Py.slice_from l (Z.of_nat prev)]
  | split :: sp' => Py.slice l (Z.of_nat prev) (Z.of_nat split) :: cut l split sp'
  end.

(** Offsets that never decrease, starting from [prev]. *)
Fixpoint ascending (prev : nat) (sp : list nat) : Prop :=
  match sp with
  | [] => True
  | split :: sp' => prev <= split /\ ascending split sp'
  end.

Definition sum_lengths {A : Type} (ls : list (list A)) : nat :=
  fold_right (fun l n => length l + n) 0 ls.

(** Two neighbouring characters of [text] are both punctuation. *)
Fixpoint adjacent_puncs (text : Py.str) : bool :=
  match text with
  | c :: (c' :: _) as rest => (in_puncs c && in_puncs c') || adjacent_puncs rest
  | _ => false
  end.

(** The surface text of an entity of the segment [sub_text]. *)
Definition surface (sub_text : Py.str) (ent : entity) : Py.str :=
  let '(_, start, end_) := ent in Py.slice sub_text start (end_ + 1).

Definition is_aspect (ent : entity) : bool :=
  let '(ent_name, _, _) := ent in String.eqb ent_name "Aspect".

Definition has_aspect (ent_list : list entity) : bool :=
  existsb is_aspect ent_list.

(** The groups one segment emits: [sub_aps] when its entities are done. *)
Definition seg_groups (seg : Py.str * list entity) : list group :=
  fst (fold_left (ent_step (fst seg)) (snd seg) ([], [])).

(** The surface texts of all entities of the segments [segs], in order. *)
Definition opinions (segs : list (Py.str * list entity)) : list Py.str :=
  flat_map (fun seg => map (surface (fst seg)) (snd seg)) segs.

(** A tag sequence made of outside labels only. *)
Definition all_outside (seq : list tag) : Prop :=
  Forall (fun t => t = "O"%string) seq.

(** A Python value that is a string, or a list of tags. *)
Inductive pyval : Type :=
| VStr (s : Py.str)
| VTags (seq : list tag).

(** The slice of the segment's tags at the offsets of an entity. *)
Definition tag_slice (sub_tag_seq : list tag) (ent : entity) : pyval :=
  let '(_, start, end_) := ent in VTags (Py.slice sub_tag_seq start (end_ + 1)).

(** No character of [s] is a comma. *)
Fixpoint comma_free (s : string) : bool :=
  match s with
  | EmptyString => true
  | String a s' => negb (Ascii.eqb a ",") && comma_free s'
  end.

(** The variables of the frame that each loop works on. *)
Definition split_vars (fr : Frame.frame) : split_state :=
  (Frame.v_prev fr, Frame.v_sub_texts fr, Frame.v_sub_tag_seqs fr).

Definition ent_vars (fr : Frame.frame) : list group * list Py.str :=
  (Frame.v_sub_aps fr, Frame.v_sub_no_a_words fr).

Definition seg_vars (fr : Frame.frame) : list group * list Py.str :=
  (Frame.v_aps fr, Frame.v_no_a_words fr).

(** ** More Python primitives *)

Module PyLib.

(** [s.startswith(sub)] *)
Fixpoint startswith (s sub : Py.str) : bool :=
  match sub, s with
  | [], _ => true
  | _ :: _, [] => false
  | c :: sub', d :: s' => N.eqb c d && startswith s' sub'
  end.

(** The search of [s.find(sub)], with [i] the offset of [s] in the string
    searched: the lowest offset at which [sub] starts, or -1. *)
Fixpoint find_from (s sub : Py.str) (i : Z) : Z :=
  match s with
  | [] => if startswith [] sub then i else (-1)%Z
  | _ :: s' => if startswith s sub then i else find_from s' sub (i + 1)
  end.

(** [s.find(sub)] *)
Definition find (s sub : Py.str) : Z := find_from s sub 0.

(** [c.isspace()], the characters that [strip()] removes. *)
Definition isspace (c : Py.char) : bool :=
  ((9 <=? c) && (c <=? 13) || (28 <=? c) && (c <=? 32)
   || (c =? 133) || (c =? 160) || (c =? 5760)
   || (8192 <=? c) && (c <=? 8202)
   || (c =? 8232) || (c =? 8233) || (c =? 8239) || (c =? 8287)
   || (c =? 12288))%N.

(** [s.lstrip()] *)
Fixpoint lstrip (s : Py.str) : Py.str :=
  match s with
  | [] => []
  | c :: s' => if isspace c then lstrip s' else s
  end.

(** [s.rstrip()] *)
Definition rstrip (s : Py.str) : Py.str := List.rev (lstrip (List.rev s)).

(** [s.strip()] *)
Definition strip (s : Py.str) : Py.str := rstrip (lstrip s).

(** [s.replace(" ", "")] *)
Definition remove_spaces (s : Py.str) : Py.str :=
  filter (fun c => negb (c =? 32)%N) s.

(** [l * k] for a list [l] and an integer [k]. *)
Definition times {A : Type} (l : list A) (k : Z) : list A :=
  concat (repeat l (Z.to_nat k)).

(** [s == t] on strings. *)
Fixpoint str_eqb (s t : Py.str) : bool :=
  match s, t with
  | [], [] => true
  | c :: s', d :: t' => N.eqb c d && str_eqb s' t'
  | _, _ => false
  end.

(** [sep.join(pieces)] *)
Fixpoint join (sep : Py.str) (pieces : list Py.str) : Py.str :=
  match pieces with
  | [] => []
  | [p] => p
  | p :: pieces' => p ++ sep ++ join sep pieces'
  end.

End PyLib.

(** ** The text handed to the sentiment classifier (demo.py, lines 82-95) *)

Definition is_aspect_first (text aspect opinion_word : Py.str) : bool :=
  (PyLib.find text aspect <=? PyLib.find text opinion_word)%Z.

(** One turn of [for opinion_word in opinion_words], on [aspect_text]; the
    separator is the full-width comma. *)
Definition concate_step (text aspect : Py.str)
    (aspect_text : Py.str) (opinion_word : Py.str) : Py.str :=
  if is_aspect_first text aspect opinion_word
  then aspect_text ++ (aspect ++ opinion_word ++ [65292%N])
  else aspect_text ++ (opinion_word ++ aspect ++ [65292%N]).

Definition concate_aspect_and_opinion (text aspect : Py.str)
    (opinion_words : list Py.str) : Py.str :=
  let aspect_text := fold_left (concate_step text aspect) opinion_words [] in
  let aspect_text := Py.slice aspect_text 0 (-1) in
  aspect_text.

(** The pair of an aspect and one opinion word, in the order of their first
    occurrences in [text]. *)
Definition piece (text aspect opinion_word : Py.str) : Py.str :=
  if is_aspect_first text aspect opinion_word
  then aspect ++ opinion_word
  else opinion_word ++ aspect.

(** [sub] starts at no offset of [s]. *)
Definition absent (sub s : Py.str) : Prop :=
  forall k, PyLib.startswith (skipn k s) sub = false.

(** ** The interactive loop of the demo (demo.py, lines 118-138) *)

(** What one turn of [while True] does with the line read. *)
Inductive action : Type :=
| Continue
| Break
| Process (input_text : Py.str).

(** Lines 119-125: the two tests on the line as read, then the cleaning. *)
Definition read (input_text : Py.str) : action :=
  if negb (nonempty input_text) then Continue
  else if PyLib.str_eqb input_text (Py.lit "quit") then Break
  else Process (PyLib.remove_spaces (PyLib.strip input_text)).

Inductive predict_exn : Type :=
| KeyError (key : Z)
| Raised (e : exn).

(** [[ext_id2label[idx] for idx in predictions]], with [ext_id2label] a
    dictionary: a key it lacks raises [KeyError]. *)
Fixpoint labels_of (ext_id2label : Z -> option tag) (predictions : list Z)
    : predict_exn + list tag :=
  match predictions with
  | [] => inr []
  | idx :: predictions' =>
      match ext_id2label idx with
      | None => inl (KeyError idx)
      | Some label =>
          match labels_of ext_id2label predictions' with
          | inl e => inl e
          | inr labels => inr (label :: labels)
          end
      end
  end.

(** Lines 136-138: the tags of the characters are the labels of the
    predictions without the first and the last one, and they are decoded
    against the cleaned text. *)
Definition extract (get_entities : list tag -> list entity)
    (ext_id2label : Z -> option tag) (input_text : Py.str)
    (predictions : list Z) : predict_exn + list group :=
  match labels_of ext_id2label predictions with
  | inl e => inl e
  | inr labels =>
      let tag_seq := Py.slice labels 1 (-1) in
      match decoding get_entities input_text tag_seq with
      | inl e => inl (Raised e)
      | inr aps => inr aps
      end
  end.

(** ** The TextCNN predictor (textcnn/deploy/python/predict.py) *)

Module TextCNN.

(** An example: the word ids of a text and its sequence length. *)
Definition example := (list Z * Z)%type.

Inductive exn : Type :=
| ValueError
| KeyError (key : Z).

(** [range(0, stop, step)]: [None] stands for the [ValueError] of a zero
    step.  A negative step from 0 up to a length gives nothing. *)
Definition range0 (stop : nat) (step : Z) : option (list Z) :=
  if (step =? 0)%Z then None
  else if (step <? 0)%Z then Some []
  else
    let n := match stop with
             | O => O
             | S stop' => S (stop' / Z.to_nat step)
             end in
    Some (map (fun k => (Z.of_nat k * step)%Z) (seq 0 n)).

(** [[label_map[i] for i in idx]], with [label_map] a dictionary. *)
Fixpoint lookup_all (label_map : Z -> option string) (idx : list Z)
    : exn + list string :=
  match idx with
  | [] => inr []
  | i :: idx' =>
      match label_map i with
      | None => inl (KeyError i)
      | Some label =>
          match lookup_all label_map idx' with
          | inl e => inl e
          | inr labels => inr (label :: labels)
          end
      end
  end.

Section Predictor.

(** [tokenizer.encode], of the [paddlenlp] package. *)
Variable encode : Py.str -> list Z.

(** What one batch goes through between [batchify_fn] and [idx.tolist()]:
    padding, the inference engine, [softmax] and [argmax], all of packages
    outside the repository. *)
Variable infer : list example -> list Z.

Variable label_map : Z -> option string.

Definition preprocess_prediction_data (text : Py.str) : example :=
  let input_id := encode text in
  let seq_len := Z.of_nat (length input_id) in
  (input_id, seq_len).

(** One turn of [for text in data], on [examples]. *)
Definition example_step (pad_token_id max_gram_filter_size : Z)
    (examples : list example) (text : Py.str) : list example :=
  let '(input_id, seq_len) := preprocess_prediction_data text in
  let '(input_id, seq_len) :=
    if (seq_len <? max_gram_filter_size)%Z
    then (input_id ++ PyLib.times [pad_token_id] (max_gram_filter_size - seq_len),
          max_gram_filter_size)
    else (input_id, seq_len) in
  examples ++ [(input_id, seq_len)].

Definition make_examples (pad_token_id max_gram_filter_size : Z)
    (data : list Py.str) : list example :=
  fold_left (example_step pad_token_id max_gram_filter_size) data [].

(** [[examples[idx:idx + batch_size] for idx in range(0, len(examples),
    batch_size)]] *)
Definition make_batches (examples : list example) (batch_size : Z)
    : exn + list (list example) :=
  match range0 (length examples) batch_size with
  | None => inl ValueError
  | Some idxs =>
      inr (map (fun idx => Py.slice examples idx (idx + batch_size)) idxs)
  end.

(** One turn of [for batch in batches], on [results]; an exception ends the
    loop. *)
Definition batch_step (results : exn + list string) (batch : list example)
    : exn + list string :=
  match results with
  | inl e => inl e
  | inr results =>
      let idx := infer batch in
      match lookup_all label_map idx with
      | inl e => inl e
      | inr labels => inr (results ++ labels)
      end
  end.

(** [Predictor.predict] *)
Definition predict (data : list Py.str) (batch_size pad_token_id
    max_gram_filter_size : Z) : exn + list string :=
  let examples := make_examples pad_token_id max_gram_filter_size data in
  match make_batches examples batch_size with
  | inl e => inl e
  | inr batches => fold_left batch_step batches (inr [])
  end.

End Predictor.

End TextCNN.

(** ** Notions of the further properties *)

(** [label_map = {0: 'negative', 1: 'neutral', 2: 'positive'}] (predict.py,
    line 156). *)
Definition label_map_of_script (i : Z) : option string :=
  if (i =? 0)%Z then Some "negative"%string
  else if (i =? 1)%Z then Some "neutral"%string
  else if (i =? 2)%Z then Some "positive"%string
  else None.

(** The number of chunks of size [s] that cover [n] items. *)
Definition chunk_count (n s : nat) : nat :=
  match n with
  | O => O
  | S n' => S (n' / s)
  end.

(** The example made of one text. *)
Definition padded (encode : Py.str -> list Z) (pad_token_id max_gram_filter_size : Z)
    (text : Py.str) : TextCNN.example :=
  (encode text
   ++ repeat pad_token_id
        (Z.to_nat (max_gram_filter_size - Z.of_nat (length (encode text)))),
   Z.max (Z.of_nat (length (encode text))) max_gram_filter_size).

(** The surface texts of the aspect entities of [segs], in order. *)
Definition aspects (segs : list (Py.str * list entity)) : list Py.str :=
  flat_map (fun seg => map (surface (fst seg)) (filter is_aspect (snd seg))) segs.

(** Some segment of [segs] holds an aspect entity. *)
Definition any_aspect (segs : list (Py.str * list entity)) : bool :=
  existsb (fun seg => has_aspect (snd seg)) segs.

(** The sentinel group's head, present when [segs] hold entities and no
    aspect among them. *)
Definition sentinel (segs : list (Py.str * list entity)) : list Py.str :=
  if any_aspect segs then []
  else if nonempty (opinions segs) then [Py.lit "None"] else [].

(** The entities of one segment by the aspect they follow: the surface texts
    met before the first aspect, and for each aspect its surface text with
    those of the entities between it and the next aspect. *)
Fixpoint blocks (sub_text : Py.str) (ent_list : list entity)
    : list Py.str * list group :=
  match ent_list with
  | [] => ([], [])
  | ent :: rest =>
      let '(leading, groups) := blocks sub_text rest in
      if is_aspect ent
      then ([], (surface sub_text ent :: leading) :: groups)
      else (surface sub_text ent :: leading, groups)
  end.

(** The first group takes [ws] in, right after its aspect. *)
Definition adopt (ws : list Py.str) (groups : list group) : list group :=
  match groups with
  | (aspect :: followers) :: groups' => (aspect :: ws ++ followers) :: groups'
  | _ => groups
  end.

(** ** [decoding] with the exceptions it can end in (demo.py, lines 22-79)

    A third embedding of [decoding], in which the two places where the
    function can raise besides its assertion are kept: the call of the span
    extractor, whose exception [decoding] does not catch, and the index
    [[-1]] into a list of groups, which raises [IndexError] on an empty
    list. *)

Module Raising.

Section Extractor.

(** The exceptions of the span extractor. *)
Variable E : Type.

Inductive error : Type :=
| AssertionError (msg : string)
| IndexError
| Extractor (e : E).

(** The span extractor: the entities of a segment of tags, or the exception
    it raises. *)
Variable get_entities : list tag -> E + list entity.

(** [for x in l], on the state [st], as long as the body does not raise. *)
Fixpoint for_each {A S : Type} (body : S -> A -> error + S) (l : list A) (st : S)
    : error + S :=
  match l with
  | [] => inr st
  | x :: l' =>
      match body st x with
      | inl e => inl e
      | inr st' => for_each body l' st'
      end
  end.

(** [groups[-1].extend(ws)] *)
Definition last_extend (groups : list group) (ws : list Py.str)
    : error + list group :=
  match groups with
  | [] => inl IndexError
  | _ :: _ => inr (removelast groups ++ [last groups [] ++ ws])
  end.

(** One turn of [for sub_text, sub_tag_seq in zip(sub_texts, sub_tag_seqs)],
    on [ents_list]. *)
Definition ents_step (ents_list : list (Py.str * list entity))
    (pair : Py.str * list tag) : error + list (Py.str * list entity) :=
  let '(sub_text, sub_tag_seq) := pair in
  match get_entities sub_tag_seq with
  | inl e => inl (Extractor e)
  | inr ents => inr (ents_list ++ [(sub_text, ents)])
  end.

(** One turn of [for ent in ent_list]. *)
Definition ent_step (sub_tag_seq : Py.str)
    (st : list group * list Py.str) (ent : entity)
    : error + (list group * list Py.str) :=
  let '(sub_aps, sub_no_a_words) := st in
  let '(ent_name, start, end_) := ent in
  if String.eqb ent_name "Aspect" then
    let aspect := Py.slice sub_tag_seq start (end_ + 1) in
    let sub_aps := sub_aps ++ [[aspect]] in
    if nonempty sub_no_a_words then
      match last_extend sub_aps sub_no_a_words with
      | inl e => inl e
      | inr sub_aps => inr (sub_aps, [])
      end
    else inr (sub_aps, sub_no_a_words)
  else
    let opinion := Py.slice sub_tag_seq start (end_ + 1) in
    if nonempty sub_aps then
      match last_extend sub_aps [opinion] with
      | inl e => inl e
      | inr sub_aps => inr (sub_aps, sub_no_a_words)
      end
    else inr (sub_aps, sub_no_a_words ++ [opinion]).

(** One turn of [for sub_tag_seq, ent_list in ents_list]. *)
Definition seg_step (st : list group * list Py.str)
    (seg : Py.str * list entity) : error + (list group * list Py.str) :=
  let '(aps, no_a_words) := st in
  let '(sub_tag_seq, ent_list) := seg in
  match for_each (ent_step sub_tag_seq) ent_list ([], []) with
  | inl e => inl e
  | inr (sub_aps, sub_no_a_words) =>
      if nonempty sub_aps then
        let aps := aps ++ sub_aps in
        if nonempty no_a_words then
          match last_extend aps no_a_words with
          | inl e => inl e
          | inr aps => inr (aps, [])
          end
        else inr (aps, no_a_words)
      else if nonempty sub_no_a_words then
        if nonempty aps then
          match last_extend aps sub_no_a_words with
          | inl e => inl e
          | inr aps => inr (aps, no_a_words)
          end
        else inr (aps, no_a_words ++ sub_no_a_words)
      else inr (aps, no_a_words)
  end.

Definition decoding (text : Py.str) (tag_seq : list tag) : error + list group :=
  if negb (Nat.eqb (length text) (length tag_seq)) then
    inl (AssertionError (mismatch_msg (length text) (length tag_seq)))
  else
    let '(sub_texts, sub_tag_seqs) := segments text tag_seq in
    match for_each ents_step (combine sub_texts sub_tag_seqs) [] with
    | inl e => inl e
    | inr ents_list =>
        match for_each seg_step ents_list ([], []) with
        | inl e => inl e
        | inr st => inr (finish st)
        end
    end.

(** The extractor where it returns; where it raises, no entity. *)
Definition returned (tags : list tag) : list entity :=
  match get_entities tags with
  | inl _ => []
  | inr ents => ents
  end.

(** The extractor returns on [tags]. *)
Definition returns (tags : list tag) : Prop :=
  exists ents, get_entities tags = inr ents.

End Extractor.

Arguments AssertionError {E} msg.
Arguments IndexError {E}.
Arguments Extractor {E} e.
Arguments for_each {E A S} body l st.
Arguments last_extend {E} groups ws.
Arguments ents_step {E} get_entities ents_list pair.
Arguments ent_step {E} sub_tag_seq st ent.
Arguments seg_step {E} st seg.
Arguments decoding {E} get_entities text tag_seq.
Arguments returned {E} get_entities tags.
Arguments returns {E} get_entities tags.

End Raising.

(** ** The span extractor and its exception *)

Module SeqevalRaising.

Inductive exn : Type :=
| StringIndexError.

(** Modelled from the spec: [get_entities] of the [seqeval] package (not in
    the repository) with the exception it can end in.  The package takes
    the first character of every tag, [chunk[0]], which raises [IndexError]
    (string index out of range) on a tag that is the empty string; on any
    other tags it returns as modelled above. *)
Definition get_entities (seq : list tag) : exn + list entity :=
  if existsb (String.eqb "") seq
  then inl StringIndexError
  else inr (Seqeval.get_entities seq).

End SeqevalRaising.

(** The groups one segment emits, by the aspect each entity follows. *)
Definition seg_blocks (seg : Py.str * list entity) : list group :=
  adopt (fst (blocks (fst seg) (snd seg))) (snd (blocks (fst seg) (snd seg))).

(** * Properties *)

(** ** Slices at offsets that are not negative *)

Lemma adjust_of_nat (len i : nat) :
  Py.adjust (Z.of_nat len) (Z.of_nat i) = Z.of_nat (Nat.min i len).
Proof.
  unfold Py.adjust.
  destruct (Z.ltb_spec (Z.of_nat i) 0); lia.
Qed.

Lemma slice_of_nat {A : Type} (l : list A) (a b : nat) :
  Py.slice l (Z.of_nat a) (Z.of_nat b) = firstn (b - a) (skipn a l).
Proof.
  unfold Py.slice. rewrite !adjust_of_nat.
  replace (Z.to_nat (Z.of_nat (Nat.min b (length l)) - Z.of_nat (Nat.min a (length l))))
    with (Nat.min b (length l) - Nat.min a (length l)) by lia.
  rewrite Nat2Z.id.
  destruct (Nat.le_gt_cases (length l) a) as [Hge | Hlt].
  - rewrite (skipn_all2 l Hge).
    rewrite (Nat.min_r a (length l) Hge).
    rewrite skipn_all. now rewrite !firstn_nil.
  - rewrite (Nat.min_l a) by lia.
    destruct (Nat.le_gt_cases b (length l)) as [Hb | Hb].
    + now rewrite Nat.min_l by exact Hb.
    + rewrite Nat.min_r by lia.
      rewrite !firstn_all2; trivial; rewrite length_skipn; lia.
Qed.

Lemma slice_from_of_nat {A : Type} (l : list A) (a : nat) :
  Py.slice_from l (Z.of_nat a) = skipn a l.
Proof.
  unfold Py.slice_from. rewrite slice_of_nat.
  apply firstn_all2. rewrite length_skipn. lia.
Qed.

(** ** The segmenter as a recursive cut *)

Lemma split_loop_cut (text : Py.str) (tag_seq : list tag) (sp : list nat) :
  forall prev ts gs,
    (let '(prev', ts', gs') := fold_left (split_step text tag_seq) sp (prev, ts, gs) in
     (ts' ++ [Py.slice_from text (Z.of_nat prev')],
      gs' ++ [Py.slice_from tag_seq (Z.of_nat prev')]))
    = (ts ++ cut text prev sp, gs ++ cut tag_seq prev sp).
Proof.
  induction sp as [| split sp IH]; intros prev ts gs; simpl.
  - reflexivity.
  - rewrite IH, <- !app_assoc. reflexivity.
Qed.

Lemma segments_cut (text : Py.str) (tag_seq : list tag) :
  segments text tag_seq
  = (cut text 0 (splits text), cut tag_seq 0 (splits text)).
Proof.
  unfold segments.
  pose proof (split_loop_cut text tag_seq (splits text) 0 [] []) as H.
  destruct (fold_left (split_step text tag_seq) (splits text) (0, [], []))
    as [[prev ts] gs].
  exact H.
Qed.

Lemma sub_texts_cut (text : Py.str) (tag_seq : list tag) :
  sub_texts text tag_seq = cut text 0 (splits text).
Proof. unfold sub_texts. now rewrite segments_cut. Qed.

Lemma sub_tag_seqs_cut (text : Py.str) (tag_seq : list tag) :
  sub_tag_seqs text tag_seq = cut tag_seq 0 (splits text).
Proof. unfold sub_tag_seqs. now rewrite segments_cut. Qed.

Lemma ascending_filter_seq (f : nat -> bool) (n : nat) :
  forall a prev, prev <= a -> ascending prev (filter f (seq a n)).
Proof.
  induction n as [| n IH]; intros a prev Hle; simpl; trivial.
  destruct (f a); simpl.
  - split; [exact Hle | apply IH; lia].
  - apply IH; lia.
Qed.

Lemma ascending_splits (text : Py.str) : ascending 0 (splits text).
Proof. apply ascending_filter_seq. lia. Qed.

Lemma concat_cut {A : Type} (l : list A) (sp : list nat) :
  forall prev, ascending prev sp -> concat (cut l prev sp) = skipn prev l.
Proof.
  induction sp as [| split sp IH]; intros prev Hasc; simpl.
  - rewrite slice_from_of_nat. apply app_nil_r.
  - destruct Hasc as [Hle Hasc].
    rewrite (IH split Hasc), slice_of_nat.
    replace split with ((split - prev) + prev) at 2 by lia.
    rewrite <- skipn_skipn.
    apply firstn_skipn.
Qed.

Lemma sum_lengths_concat {A : Type} (ls : list (list A)) :
  sum_lengths ls = length (concat ls).
Proof.
  induction ls as [| l ls IH]; simpl; trivial.
  now rewrite length_app, IH.
Qed.

(** C3.  When [text] and [tag_seq] have the same length, the segment texts
    put end to end give [text] back, the segment tag sequences put end to
    end give [tag_seq] back, and the lengths of the segment texts add up to
    the length of [text]. *)
Theorem segments_concat (text : Py.str) (tag_seq : list tag) :
  length text = length tag_seq ->
  concat (sub_texts text tag_seq) = text
  /\ concat (sub_tag_seqs text tag_seq) = tag_seq
  /\ sum_lengths (sub_texts text tag_seq) = length text.
Proof.
  intros _.
  assert (Ht : concat (sub_texts text tag_seq) = text).
  { rewrite sub_texts_cut. apply (concat_cut text _ 0), ascending_splits. }
  repeat split.
  - exact Ht.
  - rewrite sub_tag_seqs_cut. apply (concat_cut tag_seq _ 0), ascending_splits.
  - now rewrite sum_lengths_concat, Ht.
Qed.

(** ** Where the segmenter cuts *)

Lemma punc_at_char (text : Py.str) (idx : nat) :
  punc_at text idx = true <->
  exists c, nth_error text idx = Some c /\ in_puncs c = true.
Proof.
  unfold punc_at. destruct (nth_error text idx) as [c |].
  - split.
    + intros H. now exists c.
    + intros [c' [Hc' H]]. now inversion Hc'; subst.
  - split; [discriminate | intros [c [Hc _]]; discriminate].
Qed.

Lemma punc_at_lt (text : Py.str) (idx : nat) :
  punc_at text idx = true -> idx < length text.
Proof.
  intros H. apply punc_at_char in H as [c [Hc _]].
  apply nth_error_Some. congruence.
Qed.

Lemma in_splits (text : Py.str) (idx : nat) :
  In idx (splits text) <-> punc_at text idx = true.
Proof.
  unfold splits. rewrite filter_In, in_seq. split.
  - tauto.
  - intros H. pose proof (punc_at_lt _ _ H). split; [lia | exact H].
Qed.

Lemma filter_seq_sorted (f : nat -> bool) (n : nat) :
  forall a, Sorted.StronglySorted lt (filter f (seq a n)).
Proof.
  induction n as [| n IH]; intros a; simpl.
  - constructor.
  - destruct (f a); [| apply IH].
    constructor; [apply IH |].
    apply Forall_forall. intros x Hx.
    apply filter_In in Hx as [Hx _]. apply in_seq in Hx. lia.
Qed.

Lemma splits_sorted (text : Py.str) : Sorted.StronglySorted lt (splits text).
Proof. apply filter_seq_sorted. Qed.

Lemma length_cut {A : Type} (l : list A) (sp : list nat) :
  forall prev, length (cut l prev sp) = S (length sp).
Proof.
  induction sp as [| split sp IH]; intros prev; simpl; [| rewrite IH]; reflexivity.
Qed.

(** The punctuation indices are as many as the punctuation characters. *)
Lemma length_filter_seq (pre text : Py.str) :
  length (filter (punc_at (pre ++ text)) (seq (length pre) (length text)))
  = length (filter in_puncs text).
Proof.
  revert pre. induction text as [| c text IH]; intros pre; simpl; trivial.
  assert (Hc : punc_at (pre ++ c :: text) (length pre) = in_puncs c).
  { unfold punc_at. rewrite nth_error_app2 by lia.
    now rewrite Nat.sub_diag. }
  rewrite Hc.
  specialize (IH (pre ++ [c])).
  rewrite <- app_assoc, length_app in IH. simpl in IH.
  rewrite Nat.add_1_r in IH.
  destruct (in_puncs c); simpl; now rewrite IH.
Qed.

Lemma length_splits (text : Py.str) :
  length (splits text) = length (filter in_puncs text).
Proof. exact (length_filter_seq [] text). Qed.

Lemma skipn_nth_error {A : Type} (l : list A) (n : nat) (c : A) :
  nth_error l n = Some c -> skipn n l = c :: skipn (S n) l.
Proof.
  revert l. induction n as [| n IH]; intros [| x l] H; try discriminate.
  - now inversion H.
  - simpl in H. rewrite skipn_cons. rewrite (IH l H). reflexivity.
Qed.

(** The first piece of a cut that starts on the character [c] and goes on
    past it starts with [c]. *)
Lemma hd_cut {A : Type} (l : list A) (prev : nat) (c : A) (sp : list nat) :
  nth_error l prev = Some c ->
  Forall (lt prev) sp ->
  exists rest, hd_error (cut l prev sp) = Some (c :: rest).
Proof.
  intros Hc Hlt. destruct sp as [| split sp]; simpl.
  - rewrite slice_from_of_nat, (skipn_nth_error _ _ _ Hc). eauto.
  - rewrite slice_of_nat, (skipn_nth_error _ _ _ Hc).
    inversion Hlt as [| ? ? Hs _]; subst.
    destruct (split - prev) as [| d] eqn:Hd; [lia |].
    simpl. eauto.
Qed.

Lemma cut_after_split (text : Py.str) (sp : list nat) :
  Sorted.StronglySorted lt sp ->
  Forall (fun idx => punc_at text idx = true) sp ->
  forall prev k split,
    nth_error sp k = Some split ->
    exists c rest,
      nth_error text split = Some c /\ in_puncs c = true
      /\ nth_error (cut text prev sp) (S k) = Some (c :: rest).
Proof.
  induction sp as [| s sp IH]; intros Hs Hp prev k split Hk.
  - destruct k; discriminate.
  - apply Sorted.StronglySorted_inv in Hs as [Hs Hlt].
    inversion Hp as [| ? ? Hps Hp']; subst.
    destruct k as [| k]; simpl in Hk.
    + inversion Hk; subst split.
      apply punc_at_char in Hps as [c [Hc Hin]].
      destruct (hd_cut text s c sp Hc Hlt) as [rest Hrest].
      exists c, rest. repeat split; trivial.
    + exact (IH Hs Hp' s k split Hk).
Qed.

Lemma hd_cut_nil (text : Py.str) :
  hd [] (cut text 0 (splits text)) = [] <-> text = [] \/ punc_at text 0 = true.
Proof.
  pose proof (splits_sorted text) as Hs.
  pose proof (in_splits text) as Hin.
  destruct (splits text) as [| s sp] eqn:Hsp; cbn [cut hd].
  - rewrite (slice_from_of_nat text 0). simpl. split.
    + now left.
    + intros [H | H]; trivial.
      apply Hin in H. contradiction.
  - rewrite (slice_of_nat text 0 s). simpl. rewrite Nat.sub_0_r.
    assert (Hps : punc_at text s = true) by (apply Hin; now left).
    pose proof (punc_at_lt _ _ Hps) as Hlt.
    split.
    + intros H. right.
      destruct s as [| s]; trivial.
      destruct text; simpl in *; [lia | discriminate].
    + intros [H | H].
      * subst text. simpl in Hlt. lia.
      * apply Hin in H. destruct H as [H | H]; [now subst s |].
        apply Sorted.StronglySorted_inv in Hs as [_ Hall].
        rewrite Forall_forall in Hall. apply Hall in H. lia.
Qed.

(** C4, as the code has it.  The split offsets are the punctuation indices
    of [text], in ascending order; the segments are the slices
    [[prev, split)] with [prev] moved to [split] itself; there is one
    segment more than there are punctuation characters; every punctuation
    character opens the segment after its split, so no segment but the
    first is empty; the first segment is empty exactly when [text] is empty
    or starts with punctuation. *)
Theorem segments_at_punctuation (text : Py.str) (tag_seq : list tag) :
  (forall idx, In idx (splits text) <-> punc_at text idx = true)
  /\ Sorted.StronglySorted lt (splits text)
  /\ sub_texts text tag_seq = cut text 0 (splits text)
  /\ sub_tag_seqs text tag_seq = cut tag_seq 0 (splits text)
  /\ length (sub_texts text tag_seq) = S (length (filter in_puncs text))
  /\ length (sub_tag_seqs text tag_seq) = S (length (filter in_puncs text))
  /\ (forall k split,
        nth_error (splits text) k = Some split ->
        exists c rest,
          nth_error text split = Some c /\ in_puncs c = true
          /\ nth_error (sub_texts text tag_seq) (S k) = Some (c :: rest))
  /\ (forall k seg, nth_error (sub_texts text tag_seq) (S k) = Some seg -> seg <> [])
  /\ (hd [] (sub_texts text tag_seq) = [] <-> text = [] \/ punc_at text 0 = true).
Proof.
  assert (Hafter : forall k split,
             nth_error (splits text) k = Some split ->
             exists c rest,
               nth_error text split = Some c /\ in_puncs c = true
               /\ nth_error (sub_texts text tag_seq) (S k) = Some (c :: rest)).
  { intros k split Hk. rewrite sub_texts_cut.
    apply cut_after_split; trivial.
    - apply splits_sorted.
    - apply Forall_forall. intros idx. apply in_splits. }
  split; [exact (in_splits text) |].
  split; [apply splits_sorted |].
  split; [apply sub_texts_cut |].
  split; [apply sub_tag_seqs_cut |].
  split; [rewrite sub_texts_cut, <- length_splits; apply length_cut |].
  split; [rewrite sub_tag_seqs_cut, <- length_splits; apply length_cut |].
  split; [exact Hafter |].
  split; [| rewrite sub_texts_cut; apply hd_cut_nil].
  intros k seg Hseg Hnil. subst seg.
  assert (Hk : k < length (splits text)).
  { assert (Hseg' : nth_error (sub_texts text tag_seq) (S k) <> None) by congruence.
    apply nth_error_Some in Hseg'.
    rewrite sub_texts_cut in Hseg'.
    pose proof (length_cut text (splits text) 0) as Hlen.
    unfold Py.str in *. lia. }
  destruct (nth_error (splits text) k) as [split |] eqn:Hsplit.
  - destruct (Hafter k split Hsplit) as [c [rest [_ [_ H]]]]. congruence.
  - apply nth_error_None in Hsplit. lia.
Qed.

(** C4, as stated, fails: in [a,,b] two punctuation characters are
    adjacent, and no segment is empty. *)
Lemma adjacent_puncs_no_empty_segment :
  adjacent_puncs (Py.lit "a,,b") = true
  /\ sub_texts (Py.lit "a,,b") ["O"; "O"; "O"; "O"]%string
     = [Py.lit "a"; Py.lit ","; Py.lit ",b"]
  /\ ~ In [] (sub_texts (Py.lit "a,,b") ["O"; "O"; "O"; "O"]%string).
Proof.
  repeat split.
  intros H. vm_compute in H. intuition discriminate.
Qed.

(** ** The last group of a list of groups *)

Lemma extend_last_snoc (groups : list group) (g : group) (ws : list Py.str) :
  extend_last (groups ++ [g]) ws = groups ++ [g ++ ws].
Proof.
  unfold extend_last.
  destruct (groups ++ [g]) as [| x xs] eqn:E.
  - now destruct groups.
  - rewrite <- E, removelast_last, last_last. reflexivity.
Qed.

Lemma nonempty_snoc {A : Type} (l : list A) :
  nonempty l = true -> exists l' x, l = l' ++ [x].
Proof.
  intros H. destruct l as [| a l]; [discriminate |].
  destruct (exists_last (l := a :: l)) as [l' [x E]]; [discriminate |].
  now exists l', x.
Qed.

Lemma nonempty_app_r {A : Type} (l l' : list A) :
  nonempty l' = true -> nonempty (l ++ l') = true.
Proof. destruct l, l'; simpl; trivial. Qed.

Lemma nonempty_app_l {A : Type} (l l' : list A) :
  nonempty l = true -> nonempty (l ++ l') = true.
Proof. destruct l; simpl; [discriminate | trivial]. Qed.

Lemma extend_last_nil (groups : list group) : extend_last groups [] = groups.
Proof.
  destruct (nonempty groups) eqn:E.
  - destruct (nonempty_snoc _ E) as [l' [x ->]].
    now rewrite extend_last_snoc, app_nil_r.
  - now destruct groups.
Qed.

Lemma extend_last_app (groups groups' : list group) (ws : list Py.str) :
  nonempty groups' = true ->
  extend_last (groups ++ groups') ws = groups ++ extend_last groups' ws.
Proof.
  intros H. destruct (nonempty_snoc _ H) as [l' [x ->]].
  now rewrite app_assoc, !extend_last_snoc, app_assoc.
Qed.

Lemma extend_last_twice (groups : list group) (ws ws' : list Py.str) :
  extend_last (extend_last groups ws) ws' = extend_last groups (ws ++ ws').
Proof.
  destruct (nonempty groups) eqn:E.
  - destruct (nonempty_snoc _ E) as [l' [x ->]].
    now rewrite !extend_last_snoc, app_assoc.
  - now destruct groups.
Qed.

Lemma nonempty_extend_last (groups : list group) (ws : list Py.str) :
  nonempty (extend_last groups ws) = nonempty groups.
Proof.
  destruct (nonempty groups) eqn:E.
  - destruct (nonempty_snoc _ E) as [l' [x ->]].
    rewrite extend_last_snoc. now apply nonempty_app_r.
  - now destruct groups.
Qed.

(** ** The entities of one segment *)

Lemma ent_step_aspect (sub_text : Py.str) (sub_aps : list group)
    (sub_no_a_words : list Py.str) (ent : entity) :
  is_aspect ent = true ->
  ent_step sub_text (sub_aps, sub_no_a_words) ent
  = (sub_aps ++ [surface sub_text ent :: sub_no_a_words], []).
Proof.
  destruct ent as [[ent_name start] end_]. simpl. intros ->.
  destruct sub_no_a_words as [| w ws]; simpl; trivial.
  now rewrite extend_last_snoc.
Qed.

Lemma ent_step_other (sub_text : Py.str) (sub_aps : list group)
    (sub_no_a_words : list Py.str) (ent : entity) :
  is_aspect ent = false ->
  ent_step sub_text (sub_aps, sub_no_a_words) ent
  = if nonempty sub_aps
    then (extend_last sub_aps [surface sub_text ent], sub_no_a_words)
    else (sub_aps, sub_no_a_words ++ [surface sub_text ent]).
Proof.
  destruct ent as [[ent_name start] end_]. simpl. now intros ->.
Qed.

Lemma ent_loop_nonempty (sub_text : Py.str) (ent_list : list entity) :
  forall sub_aps sub_no_a_words,
    nonempty sub_aps = true ->
    nonempty (fst (fold_left (ent_step sub_text) ent_list (sub_aps, sub_no_a_words)))
    = true.
Proof.
  induction ent_list as [| ent ent_list IH]; intros sub_aps ws H;
    cbn [fold_left]; trivial.
  destruct (is_aspect ent) eqn:E.
  - rewrite (ent_step_aspect _ _ _ _ E). apply IH.
    apply nonempty_app_r. reflexivity.
  - rewrite (ent_step_other _ _ _ _ E), H. apply IH.
    now rewrite nonempty_extend_last.
Qed.

Lemma ent_loop_has_aspect (sub_text : Py.str) (ent_list : list entity) :
  forall sub_aps sub_no_a_words,
    has_aspect ent_list = true ->
    nonempty (fst (fold_left (ent_step sub_text) ent_list (sub_aps, sub_no_a_words)))
    = true.
Proof.
  unfold has_aspect.
  induction ent_list as [| ent ent_list IH]; intros sub_aps ws H;
    cbn [fold_left existsb] in *.
  - discriminate.
  - destruct (is_aspect ent) eqn:E.
    + rewrite (ent_step_aspect _ _ _ _ E). apply ent_loop_nonempty.
      apply nonempty_app_r. reflexivity.
    + destruct (ent_step sub_text (sub_aps, ws) ent) as [sub_aps' ws'].
      now apply IH.
Qed.

Lemma ent_loop_no_aspect (sub_text : Py.str) (ent_list : list entity) :
  forall sub_no_a_words,
    has_aspect ent_list = false ->
    fold_left (ent_step sub_text) ent_list ([], sub_no_a_words)
    = ([], sub_no_a_words ++ map (surface sub_text) ent_list).
Proof.
  unfold has_aspect.
  induction ent_list as [| ent ent_list IH]; intros ws H;
    cbn [fold_left existsb map] in *.
  - now rewrite app_nil_r.
  - apply orb_false_iff in H as [E H].
    rewrite (ent_step_other _ _ _ _ E). cbn [nonempty].
    now rewrite (IH _ H), <- app_assoc.
Qed.

(** ** The segments of a document *)

Lemma seg_step_no_aspect (no_a_words : list Py.str) (seg : Py.str * list entity) :
  has_aspect (snd seg) = false ->
  seg_step ([], no_a_words) seg = ([], no_a_words ++ opinions [seg]).
Proof.
  destruct seg as [sub_text ent_list]. simpl. intros H.
  rewrite (ent_loop_no_aspect _ _ [] H). simpl. rewrite !app_nil_r.
  destruct (map (surface sub_text) ent_list); simpl; trivial.
  now rewrite app_nil_r.
Qed.

Lemma opinions_app (segs segs' : list (Py.str * list entity)) :
  opinions (segs ++ segs') = opinions segs ++ opinions segs'.
Proof. apply flat_map_app. Qed.

Lemma seg_loop_no_aspect (segs : list (Py.str * list entity)) :
  forall no_a_words,
    Forall (fun seg => has_aspect (snd seg) = false) segs ->
    fold_left seg_step segs ([], no_a_words) = ([], no_a_words ++ opinions segs).
Proof.
  induction segs as [| seg segs IH]; intros ws H; cbn [fold_left].
  - simpl. now rewrite app_nil_r.
  - inversion H as [| ? ? Hseg Hsegs]; subst.
    rewrite (seg_step_no_aspect _ _ Hseg), (IH _ Hsegs).
    change (seg :: segs) with ([seg] ++ segs).
    now rewrite opinions_app, app_assoc.
Qed.

Lemma seg_step_has_aspect (aps : list group) (no_a_words : list Py.str)
    (seg : Py.str * list entity) :
  has_aspect (snd seg) = true ->
  seg_step (aps, no_a_words) seg
  = (aps ++ extend_last (seg_groups seg) no_a_words, []).
Proof.
  destruct seg as [sub_text ent_list]. unfold seg_groups. simpl. intros H.
  pose proof (ent_loop_has_aspect sub_text ent_list [] [] H) as Hne.
  destruct (fold_left (ent_step sub_text) ent_list ([], [])) as [sub_aps ws].
  simpl in *. rewrite Hne.
  destruct no_a_words as [| w no_a_words]; simpl.
  - now rewrite extend_last_nil.
  - now rewrite extend_last_app.
Qed.

Lemma seg_step_no_aspect_after (aps : list group) (no_a_words : list Py.str)
    (seg : Py.str * list entity) :
  has_aspect (snd seg) = false ->
  nonempty aps = true ->
  seg_step (aps, no_a_words) seg = (extend_last aps (opinions [seg]), no_a_words).
Proof.
  destruct seg as [sub_text ent_list]. simpl. intros H Haps.
  rewrite (ent_loop_no_aspect _ _ [] H). simpl. rewrite app_nil_r, Haps.
  destruct (map (surface sub_text) ent_list) eqn:E; simpl; trivial.
  now rewrite extend_last_nil.
Qed.

Lemma nonempty_seg_groups (seg : Py.str * list entity) :
  has_aspect (snd seg) = true -> nonempty (seg_groups seg) = true.
Proof. intros H. now apply ent_loop_has_aspect. Qed.

(** Once a group exists and nothing is buffered, the later segments only
    extend the last group and append groups after it. *)
Lemma seg_loop_later (rest : list (Py.str * list entity)) :
  forall aps,
    nonempty aps = true ->
    exists later tl,
      fold_left seg_step rest (aps, []) = (extend_last aps later ++ tl, []).
Proof.
  induction rest as [| seg rest IH]; intros aps Haps; cbn [fold_left].
  - exists [], []. now rewrite extend_last_nil, app_nil_r.
  - destruct (has_aspect (snd seg)) eqn:E.
    + rewrite (seg_step_has_aspect _ _ _ E), extend_last_nil.
      pose proof (nonempty_seg_groups _ E) as HG.
      destruct (IH (aps ++ seg_groups seg) (nonempty_app_r _ _ HG)) as [later [tl ->]].
      exists [], (extend_last (seg_groups seg) later ++ tl).
      now rewrite extend_last_nil, extend_last_app, app_assoc.
    + rewrite (seg_step_no_aspect_after _ _ _ E Haps).
      assert (Haps' : nonempty (extend_last aps (opinions [seg])) = true)
        by now rewrite nonempty_extend_last.
      destruct (IH _ Haps') as [later [tl ->]].
      exists (opinions [seg] ++ later), tl.
      now rewrite extend_last_twice.
Qed.

Section DecodingProperties.

Variable get_entities : list tag -> list entity.

Lemma decoding_ok (text : Py.str) (tag_seq : list tag) :
  length text = length tag_seq ->
  decoding get_entities text tag_seq
  = inr (aggregate (ents_list get_entities text tag_seq)).
Proof.
  intros H. unfold decoding. now rewrite H, Nat.eqb_refl.
Qed.

(** C5.  When no entity of any segment is an aspect and there is at least
    one entity, the result is the single group made of the sentinel
    [None] and the surface texts of all entities, in order. *)
Theorem only_opinions (text : Py.str) (tag_seq : list tag) :
  length text = length tag_seq ->
  Forall (fun seg => has_aspect (snd seg) = false)
         (ents_list get_entities text tag_seq) ->
  Exists (fun seg => snd seg <> []) (ents_list get_entities text tag_seq) ->
  decoding get_entities text tag_seq
  = inr [Py.lit "None" :: opinions (ents_list get_entities text tag_seq)].
Proof.
  intros Hlen Hall Hsome.
  rewrite (decoding_ok _ _ Hlen). unfold aggregate.
  rewrite (seg_loop_no_aspect _ _ Hall). cbn [app finish].
  destruct (opinions (ents_list get_entities text tag_seq)) eqn:E; trivial.
  exfalso. apply Exists_exists in Hsome as [[sub_text ent_list] [Hin Hne]].
  unfold opinions in E.
  assert (Hsub : In (sub_text, ent_list) (ents_list get_entities text tag_seq)) by exact Hin.
  destruct ent_list as [| ent ent_list]; [now apply Hne |].
  assert (Hw : In (surface sub_text ent)
                  (flat_map (fun seg => map (surface (fst seg)) (snd seg))
                            (ents_list get_entities text tag_seq))).
  { apply in_flat_map. exists (sub_text, ent :: ent_list). split; trivial.
    now left. }
  rewrite E in Hw. contradiction.
Qed.

End DecodingProperties.

(** C1, as stated, fails: in [g,ab] the opinion [g] stands alone in the first
    segment and the second segment emits the groups of [a] and of [b]; [g]
    joins the group of [b], the last one, and the first one is left as it
    is. *)
Lemma orphans_not_in_first_group :
  ents_list Seqeval.get_entities (Py.lit "g,ab")
            ["B-Opinion"; "O"; "B-Aspect"; "B-Aspect"]%string
  = [(Py.lit "g", [("Opinion"%string, 0%Z, 0%Z)]);
     (Py.lit ",ab", [("Aspect"%string, 1%Z, 1%Z); ("Aspect"%string, 2%Z, 2%Z)])]
  /\ decoding Seqeval.get_entities (Py.lit "g,ab")
              ["B-Opinion"; "O"; "B-Aspect"; "B-Aspect"]%string
     = inr [[Py.lit "a"]; [Py.lit "b"; Py.lit "g"]]
  /\ ~ In (Py.lit "g") [Py.lit "a"].
Proof.
  repeat split. intros [H | []]. discriminate.
Qed.

(** ** Documents without entities *)

Lemma Forall_slice {A : Type} (P : A -> Prop) (l : list A) (start stop : Z) :
  Forall P l -> Forall P (Py.slice l start stop).
Proof.
  intros H. unfold Py.slice.
  set (a := Z.to_nat _). set (n := Z.to_nat _).
  rewrite <- (firstn_skipn n l) in H. apply Forall_app in H as [_ H].
  rewrite <- (firstn_skipn a (skipn n l)) in H. now apply Forall_app in H as [H _].
Qed.

Lemma Forall_cut {A : Type} (P : A -> Prop) (l : list A) (sp : list nat) :
  Forall P l -> forall prev, Forall (Forall P) (cut l prev sp).
Proof.
  intros H. induction sp as [| split sp IH]; intros prev; simpl.
  - constructor; [| constructor]. now apply Forall_slice.
  - constructor; [now apply Forall_slice | apply IH].
Qed.

Lemma in_ents_list (get_entities : list tag -> list entity)
    (text : Py.str) (tag_seq : list tag) (seg : Py.str * list entity) :
  In seg (ents_list get_entities text tag_seq) ->
  In (fst seg) (sub_texts text tag_seq)
  /\ exists sub_tag_seq,
       In sub_tag_seq (sub_tag_seqs text tag_seq)
       /\ snd seg = get_entities sub_tag_seq.
Proof.
  unfold ents_list. intros H.
  apply in_map_iff in H as [[sub_text sub_tag_seq] [<- H]]. simpl. split.
  - eapply in_combine_l, H.
  - exists sub_tag_seq. split; trivial. eapply in_combine_r, H.
Qed.

Lemma aggregate_no_entities (segs : list (Py.str * list entity)) :
  Forall (fun seg => snd seg = []) segs -> aggregate segs = [].
Proof.
  intros H. unfold aggregate.
  rewrite seg_loop_no_aspect.
  - assert (E : opinions segs = []).
    { unfold opinions. induction H as [| seg segs Hseg _ IH]; simpl; trivial.
      now rewrite Hseg, IH. }
    now rewrite E.
  - eapply Forall_impl; [| exact H].
    intros seg ->. reflexivity.
Qed.

Lemma scan_outside (seq : list tag) :
  all_outside seq ->
  forall i chunks,
    fold_left Seqeval.scan_step seq (i, None, chunks)
    = ((i + Z.of_nat (length seq))%Z, None, chunks).
Proof.
  induction 1 as [| t seq Ht _ IH]; intros i chunks; cbn [fold_left length].
  - now rewrite Z.add_0_r.
  - subst t. simpl Seqeval.scan_step. rewrite IH. do 2 f_equal. lia.
Qed.

Lemma get_entities_outside (seq : list tag) :
  all_outside seq -> Seqeval.get_entities seq = [].
Proof.
  intros H. unfold Seqeval.get_entities. now rewrite (scan_outside _ H).
Qed.

Section NoEntities.

Variable get_entities : list tag -> list entity.

(** C6.  On a text and a tag sequence of the same length [decoding] returns
    a result, not an error; the result is empty when the extractor finds no
    entity in any segment, as it does on a tag sequence of outside labels
    for an extractor that finds nothing among outside labels. *)
Theorem no_entities (text : Py.str) (tag_seq : list tag) :
  length text = length tag_seq ->
  (exists aps, decoding get_entities text tag_seq = inr aps)
  /\ (Forall (fun seq => get_entities seq = []) (sub_tag_seqs text tag_seq) ->
      decoding get_entities text tag_seq = inr [])
  /\ ((forall seq, all_outside seq -> get_entities seq = []) ->
      all_outside tag_seq ->
      decoding get_entities text tag_seq = inr []).
Proof.
  intros Hlen. rewrite (decoding_ok _ _ _ Hlen).
  assert (Hnone : Forall (fun seq => get_entities seq = []) (sub_tag_seqs text tag_seq) ->
                  inr (aggregate (ents_list get_entities text tag_seq))
                  = (inr [] : exn + list group)).
  { intros H. f_equal. apply aggregate_no_entities.
    apply Forall_forall. intros seg Hseg.
    apply in_ents_list in Hseg as [_ [sub_tag_seq [Hin ->]]].
    rewrite Forall_forall in H. now apply H. }
  split; [eauto |]. split; [exact Hnone |].
  intros Hcontract Hall. apply Hnone.
  rewrite sub_tag_seqs_cut.
  eapply Forall_impl; [| apply (Forall_cut _ _ _ Hall)].
  exact Hcontract.
Qed.

End NoEntities.

(** ** What the aspect branch slices *)

Lemma ents_list_combine (get_entities : list tag -> list entity)
    (text : Py.str) (tag_seq : list tag) :
  ents_list get_entities text tag_seq
  = combine (sub_texts text tag_seq) (map get_entities (sub_tag_seqs text tag_seq)).
Proof.
  unfold ents_list.
  generalize (sub_texts text tag_seq) (sub_tag_seqs text tag_seq).
  induction l as [| t l IH]; intros [| g l']; simpl; trivial.
  now rewrite IH.
Qed.

(** C2, as the code has it.  The first component of every [ents_list] pair
    is the segment's character text, and it is this component that the
    aggregation loop binds to the variable it calls [sub_tag_seq]: the first
    element of the group of an aspect entity is the slice of the segment's
    text from [start] to [end_] inclusive, followed by the opinion words
    buffered in the segment.  So a text without punctuation whose tags hold
    one aspect entity decodes to the one group made of that slice of the
    text. *)
Theorem aspect_sliced_from_text (get_entities : list tag -> list entity)
    (text : Py.str) (tag_seq : list tag) (sub_text : Py.str)
    (sub_aps : list group) (sub_no_a_words : list Py.str) (start end_ : Z) :
  ents_list get_entities text tag_seq
  = combine (sub_texts text tag_seq) (map get_entities (sub_tag_seqs text tag_seq))
  /\ ent_step sub_text (sub_aps, sub_no_a_words) ("Aspect"%string, start, end_)
     = (sub_aps ++ [Py.slice sub_text start (end_ + 1) :: sub_no_a_words], [])
  /\ (length text = length tag_seq ->
      splits text = [] ->
      get_entities tag_seq = [("Aspect"%string, start, end_)] ->
      decoding get_entities text tag_seq = inr [[Py.slice text start (end_ + 1)]]).
Proof.
  split; [apply ents_list_combine |].
  split; [now rewrite ent_step_aspect |].
  intros Hlen Hsp Hents.
  rewrite (decoding_ok _ _ _ Hlen), ents_list_combine.
  rewrite sub_texts_cut, sub_tag_seqs_cut, Hsp.
  cbn [cut map combine].
  rewrite (slice_from_of_nat text 0), (slice_from_of_nat tag_seq 0), !skipn_0, Hents.
  reflexivity.
Qed.

(** C2, as stated, fails: on the text [ab] tagged as one aspect the group
    holds the string [ab], not the two tags. *)
Lemma aspect_not_sliced_from_tags :
  ents_list Seqeval.get_entities (Py.lit "ab") ["B-Aspect"; "I-Aspect"]%string
  = [(Py.lit "ab", [("Aspect"%string, 0%Z, 1%Z)])]
  /\ decoding Seqeval.get_entities (Py.lit "ab") ["B-Aspect"; "I-Aspect"]%string
     = inr [[Py.lit "ab"]]
  /\ tag_slice ["B-Aspect"; "I-Aspect"]%string ("Aspect"%string, 0%Z, 1%Z)
     = VTags ["B-Aspect"; "I-Aspect"]%string
  /\ VStr (Py.lit "ab")
     <> tag_slice ["B-Aspect"; "I-Aspect"]%string ("Aspect"%string, 0%Z, 1%Z).
Proof.
  repeat split. discriminate.
Qed.

(** ** Labels other than the aspect label *)

(** C9.  An entity whose label is not [Aspect] is handled exactly as one
    labelled [Opinion]: its surface text is appended to the last group of
    the segment, or buffered when the segment has no group yet. *)
Theorem other_label_is_opinion (sub_text : Py.str) (sub_aps : list group)
    (sub_no_a_words : list Py.str) (ent_name : string) (start end_ : Z) :
  ent_name <> "Aspect"%string ->
  ent_step sub_text (sub_aps, sub_no_a_words) (ent_name, start, end_)
  = ent_step sub_text (sub_aps, sub_no_a_words) ("Opinion"%string, start, end_)
  /\ ent_step sub_text (sub_aps, sub_no_a_words) (ent_name, start, end_)
     = if nonempty sub_aps
       then (extend_last sub_aps [Py.slice sub_text start (end_ + 1)], sub_no_a_words)
       else (sub_aps, sub_no_a_words ++ [Py.slice sub_text start (end_ + 1)]).
Proof.
  intros H. apply String.eqb_neq in H.
  unfold ent_step. rewrite H. simpl. split; reflexivity.
Qed.

(** ** The length check *)

Lemma append_cancel_l (s x y : string) :
  (s ++ x = s ++ y)%string -> x = y.
Proof.
  induction s as [| a s IH]; simpl; intros H; trivial.
  apply IH. now inversion H.
Qed.

Lemma comma_free_str_of_nat (n : nat) : comma_free (Py.str_of_nat n) = true.
Proof.
  unfold Py.str_of_nat. generalize (Nat.to_uint n).
  induction u as [| u IH | u IH | u IH | u IH | u IH | u IH | u IH | u IH | u IH | u IH];
    simpl; trivial.
Qed.

Lemma str_of_nat_inj (n n' : nat) : Py.str_of_nat n = Py.str_of_nat n' -> n = n'.
Proof.
  unfold Py.str_of_nat. intros H.
  apply DecimalNat.Unsigned.to_uint_inj.
  pose proof (NilEmpty.usu (Nat.to_uint n)) as Hn.
  pose proof (NilEmpty.usu (Nat.to_uint n')) as Hn'.
  rewrite H in Hn. congruence.
Qed.

(** Two comma-free strings, each followed by a comma, can only be followed
    by the same text if they are equal. *)
Lemma split_at_comma (s s' r r' : string) :
  comma_free s = true -> comma_free s' = true ->
  (s ++ String "," r = s' ++ String "," r')%string ->
  s = s' /\ r = r'.
Proof.
  revert s'. induction s as [| a s IH]; intros [| a' s'] Hs Hs' H; simpl in *.
  - inversion H. now split.
  - inversion H; subst a'. discriminate.
  - inversion H; subst a. discriminate.
  - apply andb_true_iff in Hs as [_ Hs]. apply andb_true_iff in Hs' as [_ Hs'].
    inversion H; subst a'.
    destruct (IH s' Hs Hs') as [-> ->]; trivial. now split.
Qed.

Lemma mismatch_msg_inj (n m n' m' : nat) :
  mismatch_msg n m = mismatch_msg n' m' -> n = n' /\ m = m'.
Proof.
  unfold mismatch_msg. intros H.
  apply append_cancel_l in H.
  change (", tag_seq len: " ++ ?x)%string with (String "," (" tag_seq len: " ++ x)) in H.
  apply split_at_comma in H as [Hn H]; try apply comma_free_str_of_nat.
  apply append_cancel_l in H.
  split; now apply str_of_nat_inj.
Qed.

(** ** Duplicates *)

(** C10.  [decoding] removes no duplicate: there is an input on which one
    opinion string is extracted twice and stands twice in its group,
    whichever extractor reports the two opinion entities; the caller's
    [list(set(ap[1:]))] then keeps it once. *)
Theorem decoding_keeps_duplicates :
  exists text tag_seq ents aspect w,
    Seqeval.get_entities tag_seq = ents
    /\ (forall get_entities,
          get_entities tag_seq = ents ->
          decoding get_entities text tag_seq = inr [[aspect; w; w]])
    /\ count_occ (list_eq_dec N.eq_dec) [aspect; w; w] w = 2
    /\ forall words, opinion_words [aspect; w; w] words -> words = [w].
Proof.
  exists (Py.lit "agcg"), ["B-Aspect"; "B-Opinion"; "O"; "B-Opinion"]%string,
         [("Aspect"%string, 0%Z, 0%Z); ("Opinion"%string, 1%Z, 1%Z);
          ("Opinion"%string, 3%Z, 3%Z)],
         (Py.lit "a"), (Py.lit "g").
  split; [reflexivity |].
  split.
  { intros get_entities Hents.
    rewrite decoding_ok by reflexivity.
    rewrite ents_list_combine, sub_texts_cut, sub_tag_seqs_cut.
    change (splits (Py.lit "agcg")) with (@nil nat).
    cbn [cut map combine].
    change (Py.slice_from ["B-Aspect"; "B-Opinion"; "O"; "B-Opinion"]%string (Z.of_nat 0))
      with ["B-Aspect"; "B-Opinion"; "O"; "B-Opinion"]%string.
    rewrite Hents. reflexivity. }
  split; [reflexivity |].
  intros words [Hnd Hin].
  change (Py.slice_from [Py.lit "a"; Py.lit "g"; Py.lit "g"] 1)
    with [Py.lit "g"; Py.lit "g"] in Hin.
  assert (Hall : forall x, In x words -> x = Py.lit "g").
  { intros x Hx. apply Hin in Hx. simpl in Hx. intuition congruence. }
  destruct words as [| x [| y words]].
  - exfalso. apply (proj2 (Hin (Py.lit "g"))). now left.
  - f_equal. apply Hall. now left.
  - exfalso.
    assert (x = Py.lit "g") by (apply Hall; now left).
    assert (y = Py.lit "g") by (apply Hall; right; now left).
    subst. inversion Hnd as [| ? ? Hx _]. apply Hx. now left.
Qed.

(** ** Calls do not share state *)

Lemma fold_left_sim {S T X : Type} (p : S -> T) (f : S -> X -> S) (g : T -> X -> T) :
  (forall s x, p (f s x) = g (p s) x) ->
  forall l s, p (fold_left f l s) = fold_left g l (p s).
Proof.
  intros H. induction l as [| x l IH]; intros s; simpl; trivial.
  now rewrite IH, H.
Qed.

Lemma split_body_step (text : Py.str) (tag_seq : list tag)
    (fr : Frame.frame) (split : nat) :
  split_vars (Frame.split_body text tag_seq fr split)
  = split_step text tag_seq (split_vars fr) split.
Proof. reflexivity. Qed.

Lemma ents_loop (get_entities : list tag -> list entity)
    (pairs : list (Py.str * list tag)) :
  forall fr,
    Frame.v_ents_list (fold_left (Frame.ents_body get_entities) pairs fr)
    = Frame.v_ents_list fr
      ++ map (fun '(sub_text, sub_tag_seq) => (sub_text, get_entities sub_tag_seq)) pairs.
Proof.
  induction pairs as [| [sub_text sub_tag_seq] pairs IH]; intros fr; simpl.
  - now rewrite app_nil_r.
  - rewrite IH. simpl. now rewrite <- app_assoc.
Qed.

Lemma ent_body_step (sub_text : Py.str) (fr : Frame.frame) (ent : entity) :
  ent_vars (Frame.ent_body sub_text fr ent) = ent_step sub_text (ent_vars fr) ent.
Proof.
  destruct ent as [[ent_name start] end_]. unfold Frame.ent_body, ent_step, ent_vars.
  destruct (String.eqb ent_name "Aspect"); simpl.
  - now destruct (nonempty (Frame.v_sub_no_a_words fr)).
  - now destruct (nonempty (Frame.v_sub_aps fr)).
Qed.

Lemma ent_body_keeps (sub_text : Py.str) (fr : Frame.frame) (ent : entity) :
  seg_vars (Frame.ent_body sub_text fr ent) = seg_vars fr.
Proof.
  destruct ent as [[ent_name start] end_]. unfold Frame.ent_body, seg_vars.
  destruct (String.eqb ent_name "Aspect"); simpl.
  - now destruct (nonempty (Frame.v_sub_no_a_words fr)).
  - now destruct (nonempty (Frame.v_sub_aps fr)).
Qed.

Lemma seg_body_step (fr : Frame.frame) (seg : Py.str * list entity) :
  seg_vars (Frame.seg_body fr seg) = seg_step (seg_vars fr) seg.
Proof.
  destruct seg as [sub_text ent_list]. unfold Frame.seg_body.
  set (fr0 := Frame.set_sub_no_a_words [] (Frame.set_sub_aps [] fr)).
  pose proof (fold_left_sim ent_vars _ _ (ent_body_step sub_text) ent_list fr0) as Hent.
  pose proof (fold_left_sim seg_vars _ (fun st _ => st)
                (ent_body_keeps sub_text) ent_list fr0) as Hseg.
  assert (Hid : forall (l : list entity) (st : list group * list Py.str),
             fold_left (fun st _ => st) l st = st).
  { induction l; simpl; trivial. }
  rewrite Hid in Hseg.
  set (fr1 := fold_left (Frame.ent_body sub_text) ent_list fr0) in *.
  change (ent_vars fr0) with (@nil group, @nil Py.str) in Hent.
  change (seg_vars fr0) with (seg_vars fr) in Hseg.
  unfold seg_step. destruct (seg_vars fr) as [aps no_a_words] eqn:Efr.
  rewrite <- Hent.
  unfold ent_vars, seg_vars in *. inversion Hseg as [[Haps Hnaw]].
  destruct (nonempty (Frame.v_sub_aps fr1)); simpl.
  - rewrite Hnaw. destruct (nonempty no_a_words); simpl; now rewrite ?Haps, ?Hnaw.
  - destruct (nonempty (Frame.v_sub_no_a_words fr1)); simpl.
    + rewrite Haps. destruct (nonempty aps); simpl; now rewrite ?Haps, ?Hnaw.
    + now rewrite Haps, Hnaw.
Qed.

Lemma frame_decoding (get_entities : list tag -> list entity) (fr : Frame.frame)
    (text : Py.str) (tag_seq : list tag) :
  fst (Frame.decoding get_entities fr text tag_seq)
  = decoding get_entities text tag_seq.
Proof.
  unfold Frame.decoding, decoding.
  destruct (Nat.eqb (length text) (length tag_seq)); simpl; trivial.
  set (fr0 := Frame.set_sub_tag_seqs [] (Frame.set_sub_texts [] (Frame.set_prev 0 fr))).
  pose proof (fold_left_sim split_vars _ _ (split_body_step text tag_seq)
                (splits text) fr0) as Hsplit.
  set (fr1 := fold_left (Frame.split_body text tag_seq) (splits text) fr0) in *.
  change (split_vars fr0) with (0, @nil Py.str, @nil (list tag)) in Hsplit.
  set (fr2 := Frame.set_ents_list [] _).
  assert (Hsegs : (Frame.v_sub_texts fr2, Frame.v_sub_tag_seqs fr2)
                  = segments text tag_seq).
  { unfold segments. rewrite <- Hsplit. reflexivity. }
  set (fr3 := fold_left (Frame.ents_body get_entities) _ fr2).
  assert (Hents : Frame.v_ents_list fr3 = ents_list get_entities text tag_seq).
  { unfold fr3. rewrite ents_loop. unfold ents_list, sub_texts, sub_tag_seqs.
    rewrite <- Hsegs. reflexivity. }
  set (fr4 := Frame.set_no_a_words [] (Frame.set_aps [] fr3)).
  pose proof (fold_left_sim seg_vars _ _ seg_body_step (Frame.v_ents_list fr4) fr4)
    as Hloop.
  change (seg_vars fr4) with (@nil group, @nil Py.str) in Hloop.
  change (Frame.v_ents_list fr4) with (Frame.v_ents_list fr3) in *.
  rewrite Hents in *.
  set (fr5 := fold_left Frame.seg_body _ fr4) in *.
  unfold aggregate. rewrite <- Hloop. unfold seg_vars, finish.
  now destruct (nonempty (Frame.v_no_a_words fr5)).
Qed.

(** C8.  A call of [decoding] returns what the function of [(text,
    tag_seq)] returns, whatever frame an earlier call left behind: two
    frames give the same answer, and a second call on the frame the first
    one leaves gives the first call's answer again. *)
Theorem decoding_pure (get_entities : list tag -> list entity)
    (text : Py.str) (tag_seq : list tag) (fr fr' : Frame.frame) :
  fst (Frame.decoding get_entities fr text tag_seq)
  = decoding get_entities text tag_seq
  /\ fst (Frame.decoding get_entities fr text tag_seq)
     = fst (Frame.decoding get_entities fr' text tag_seq)
  /\ fst (Frame.decoding get_entities
            (snd (Frame.decoding get_entities fr text tag_seq)) text tag_seq)
     = fst (Frame.decoding get_entities fr text tag_seq).
Proof.
  pose proof (frame_decoding get_entities fr text tag_seq) as Hfr.
  split; [exact Hfr |]. split.
  - rewrite Hfr. symmetry. apply frame_decoding.
  - rewrite Hfr. apply frame_decoding.
Qed.

(** ** The theorems at concrete inputs *)

(** C3 on [ab,cd!]. *)
Lemma segments_concat_witness :
  length (Py.lit "ab,cd!") = length ["B-Aspect"; "I-Aspect"; "O"; "B-Opinion"; "O"; "O"]%string
  /\ (concat (sub_texts (Py.lit "ab,cd!")
                        ["B-Aspect"; "I-Aspect"; "O"; "B-Opinion"; "O"; "O"]%string)
      = Py.lit "ab,cd!"
      /\ concat (sub_tag_seqs (Py.lit "ab,cd!")
                              ["B-Aspect"; "I-Aspect"; "O"; "B-Opinion"; "O"; "O"]%string)
         = ["B-Aspect"; "I-Aspect"; "O"; "B-Opinion"; "O"; "O"]%string
      /\ sum_lengths (sub_texts (Py.lit "ab,cd!")
                                ["B-Aspect"; "I-Aspect"; "O"; "B-Opinion"; "O"; "O"]%string)
         = length (Py.lit "ab,cd!")).
Proof.
  split; [reflexivity |].
  apply (segments_concat (Py.lit "ab,cd!")
           ["B-Aspect"; "I-Aspect"; "O"; "B-Opinion"; "O"; "O"]%string).
  reflexivity.
Defined.

(** C5 on [gh,i]: three opinions, no aspect. *)
Lemma only_opinions_witness :
  length (Py.lit "gh,i") = length ["B-Opinion"; "B-Opinion"; "O"; "B-Opinion"]%string
  /\ decoding Seqeval.get_entities (Py.lit "gh,i")
              ["B-Opinion"; "B-Opinion"; "O"; "B-Opinion"]%string
     = inr [Py.lit "None"
            :: opinions (ents_list Seqeval.get_entities (Py.lit "gh,i")
                           ["B-Opinion"; "B-Opinion"; "O"; "B-Opinion"]%string)].
Proof.
  split; [reflexivity |].
  apply (only_opinions Seqeval.get_entities (Py.lit "gh,i")
           ["B-Opinion"; "B-Opinion"; "O"; "B-Opinion"]%string).
  - reflexivity.
  - repeat constructor.
  - apply Exists_cons_hd. discriminate.
Defined.

(** C6 on [a,b] with outside tags only. *)
Lemma no_entities_witness :
  length (Py.lit "a,b") = length ["O"; "O"; "O"]%string
  /\ all_outside ["O"; "O"; "O"]%string
  /\ decoding Seqeval.get_entities (Py.lit "a,b") ["O"; "O"; "O"]%string = inr [].
Proof.
  split; [reflexivity |]. split; [repeat constructor |].
  apply (no_entities Seqeval.get_entities (Py.lit "a,b") ["O"; "O"; "O"]%string).
  - reflexivity.
  - exact get_entities_outside.
  - repeat constructor.
Defined.

(** C9 on an entity labelled [Other], after the aspect [a] of [abc]. *)
Lemma other_label_is_opinion_witness :
  "Other"%string <> "Aspect"%string
  /\ ent_step (Py.lit "abc") ([[Py.lit "a"]], []) ("Other"%string, 1%Z, 2%Z)
     = ent_step (Py.lit "abc") ([[Py.lit "a"]], []) ("Opinion"%string, 1%Z, 2%Z)
  /\ ent_step (Py.lit "abc") ([[Py.lit "a"]], []) ("Other"%string, 1%Z, 2%Z)
     = ([[Py.lit "a"; Py.lit "bc"]], []).
Proof.
  split; [discriminate |].
  apply (other_label_is_opinion (Py.lit "abc") [[Py.lit "a"]] []
           "Other"%string 1%Z 2%Z).
  discriminate.
Defined.

(** * Further properties of [decoding] *)

(** ** Segments and their entities stay aligned *)

Lemma length_slice_eq {A B : Type} (l : list A) (l' : list B) (start stop : Z) :
  length l = length l' ->
  length (Py.slice l start stop) = length (Py.slice l' start stop).
Proof.
  intros H. unfold Py.slice.
  rewrite !length_firstn, !length_skipn, H. reflexivity.
Qed.

Lemma cut_aligned {A B : Type} (l : list A) (l' : list B) (sp : list nat) :
  length l = length l' ->
  forall prev,
    Forall2 (fun t g => length t = length g) (cut l prev sp) (cut l' prev sp).
Proof.
  intros H. induction sp as [| split sp IH]; intros prev; simpl.
  - constructor; [| constructor].
    unfold Py.slice_from. rewrite H. now apply length_slice_eq.
  - constructor; [now apply length_slice_eq | apply IH].
Qed.

Lemma combine_map_fst {A B C : Type} (f : B -> C) (l : list A) (l' : list B) :
  length l = length l' ->
  map fst (combine l (map f l')) = l /\ map snd (combine l (map f l')) = map f l'.
Proof.
  revert l'. induction l as [| x l IH]; intros [| y l'] H; try discriminate.
  - now split.
  - simpl. injection H as H. destruct (IH l' H) as [-> ->]. now split.
Qed.

Lemma length_segments (text : Py.str) (tag_seq : list tag) :
  length (sub_texts text tag_seq) = length (sub_tag_seqs text tag_seq).
Proof.
  rewrite sub_texts_cut, sub_tag_seqs_cut.
  pose proof (length_cut text (splits text) 0) as H.
  pose proof (length_cut tag_seq (splits text) 0) as H'.
  unfold Py.str in *. congruence.
Qed.

(** X1.  [zip] drops no segment: the k-th entry of [ents_list] is the k-th
    segment text with the entities of the k-th segment of tags; and when
    [text] and [tag_seq] have the same length, each segment of tags is as
    long as its segment of text, so the offsets of an entity found in the
    tags are offsets of the same characters in the text. *)
Theorem segments_aligned (get_entities : list tag -> list entity)
    (text : Py.str) (tag_seq : list tag) :
  map fst (ents_list get_entities text tag_seq) = sub_texts text tag_seq
  /\ map snd (ents_list get_entities text tag_seq)
     = map get_entities (sub_tag_seqs text tag_seq)
  /\ (length text = length tag_seq ->
      Forall2 (fun sub_text sub_tag_seq => length sub_text = length sub_tag_seq)
              (sub_texts text tag_seq) (sub_tag_seqs text tag_seq)).
Proof.
  rewrite ents_list_combine.
  destruct (combine_map_fst get_entities _ _ (length_segments text tag_seq))
    as [Hfst Hsnd].
  split; [exact Hfst |]. split; [exact Hsnd |].
  intros Hlen. rewrite sub_texts_cut, sub_tag_seqs_cut.
  now apply cut_aligned.
Qed.

(** ** The entities of a segment, grouped by aspect *)

Lemma adopt_nil (groups : list group) : adopt [] groups = groups.
Proof. now destruct groups as [| [| aspect followers] groups]. Qed.

Lemma ent_loop_blocks (sub_text : Py.str) (ent_list : list entity) :
  forall sub_aps sub_no_a_words,
    fold_left (ent_step sub_text) ent_list (sub_aps, sub_no_a_words)
    = let '(leading, groups) := blocks sub_text ent_list in
      match groups with
      | [] =>
          if nonempty sub_aps
          then (extend_last sub_aps leading, sub_no_a_words)
          else (sub_aps, sub_no_a_words ++ leading)
      | _ :: _ =>
          if nonempty sub_aps
          then (extend_last sub_aps leading ++ adopt sub_no_a_words groups, [])
          else (adopt (sub_no_a_words ++ leading) groups, [])
      end.
Proof.
  induction ent_list as [| ent ent_list IH]; intros G w; cbn [fold_left blocks].
  - destruct (nonempty G) eqn:E.
    + now rewrite extend_last_nil.
    + now rewrite app_nil_r.
  - destruct (blocks sub_text ent_list) as [leading groups].
    destruct (is_aspect ent) eqn:Ea.
    + rewrite (ent_step_aspect _ _ _ _ Ea), IH.
      rewrite nonempty_app_r by reflexivity.
      rewrite extend_last_snoc, adopt_nil, extend_last_nil.
      cbn [adopt]. rewrite app_nil_r.
      destruct G as [| g G]; cbn [nonempty]; destruct groups;
        rewrite <- ?app_assoc; reflexivity.
    + rewrite (ent_step_other _ _ _ _ Ea).
      destruct (nonempty G) eqn:E.
      * rewrite IH, nonempty_extend_last, E, extend_last_twice.
        now destruct groups.
      * rewrite IH, E, <- app_assoc. now destruct groups.
Qed.

(** X4.  Within one segment, starting from no group and no buffered word,
    the loop over the entities gives each aspect a group of its own, made of
    the aspect's text and the texts of the entities up to the next aspect;
    the entities ahead of the first aspect go into the first group, between
    its aspect and the entities that follow it.  Without an aspect no group
    is made and all the texts are left buffered; with one, nothing is left
    buffered. *)
Theorem segment_grouped_by_aspect (sub_text : Py.str) (ent_list : list entity) :
  fold_left (ent_step sub_text) ent_list ([], [])
  = match snd (blocks sub_text ent_list) with
    | [] => ([], fst (blocks sub_text ent_list))
    | _ :: _ =>
        (adopt (fst (blocks sub_text ent_list)) (snd (blocks sub_text ent_list)), [])
    end.
Proof.
  rewrite ent_loop_blocks.
  destruct (blocks sub_text ent_list) as [leading groups]. simpl.
  now destruct groups.
Qed.

(** ** What the groups hold *)

Lemma blocks_ok (sub_text : Py.str) (ent_list : list entity) :
  Forall (fun g => g <> []) (snd (blocks sub_text ent_list))
  /\ map (hd []) (snd (blocks sub_text ent_list))
     = map (surface sub_text) (filter is_aspect ent_list)
  /\ fst (blocks sub_text ent_list) ++ concat (snd (blocks sub_text ent_list))
     = map (surface sub_text) ent_list.
Proof.
  induction ent_list as [| ent ent_list [IHok [IHhd IHall]]]; cbn [blocks filter map].
  - repeat split. constructor.
  - destruct (blocks sub_text ent_list) as [leading groups].
    destruct (is_aspect ent); cbn [fst snd map hd concat app] in *.
    + split; [constructor; [discriminate | exact IHok] |].
      split; [now rewrite IHhd | now rewrite <- IHall].
    + split; [exact IHok |]. split; [exact IHhd | now rewrite <- IHall].
Qed.

Lemma adopt_ok (ws : list Py.str) (groups : list group) :
  Forall (fun g => g <> []) groups ->
  Forall (fun g => g <> []) (adopt ws groups)
  /\ map (hd []) (adopt ws groups) = map (hd []) groups
  /\ (groups <> [] -> Permutation (concat (adopt ws groups)) (ws ++ concat groups)).
Proof.
  intros H. destruct groups as [| [| aspect followers] groups]; cbn [adopt].
  - repeat split; trivial. intros E. now contradiction E.
  - inversion H as [| ? ? Hg _]. now contradiction Hg.
  - inversion H as [| ? ? _ Hgs]; subst. split; [constructor; [discriminate | exact Hgs] |].
    split; [reflexivity |].
    intros _. simpl. rewrite <- app_assoc. apply Permutation_middle.
Qed.

Lemma seg_groups_blocks (seg : Py.str * list entity) :
  seg_groups seg
  = match snd (blocks (fst seg) (snd seg)) with
    | [] => []
    | _ :: _ => adopt (fst (blocks (fst seg) (snd seg))) (snd (blocks (fst seg) (snd seg)))
    end.
Proof.
  unfold seg_groups. rewrite ent_loop_blocks.
  destruct (blocks (fst seg) (snd seg)) as [leading groups]. simpl.
  now destruct groups.
Qed.

Lemma opinions_one (seg : Py.str * list entity) :
  opinions [seg] = map (surface (fst seg)) (snd seg).
Proof. unfold opinions. simpl. apply app_nil_r. Qed.

Lemma aspects_one (seg : Py.str * list entity) :
  aspects [seg] = map (surface (fst seg)) (filter is_aspect (snd seg)).
Proof. unfold aspects. simpl. apply app_nil_r. Qed.

Lemma seg_groups_ok (seg : Py.str * list entity) :
  Forall (fun g => g <> []) (seg_groups seg)
  /\ map (hd []) (seg_groups seg) = aspects [seg]
  /\ (has_aspect (snd seg) = true ->
      Permutation (concat (seg_groups seg)) (opinions [seg])).
Proof.
  rewrite seg_groups_blocks, aspects_one, opinions_one.
  destruct (blocks_ok (fst seg) (snd seg)) as [Hok [Hhd Hall]].
  destruct (blocks (fst seg) (snd seg)) as [leading groups].
  cbn [fst snd] in *.
  destruct groups as [| g groups].
  - split; [constructor |]. split; [exact Hhd |].
    intros Ha. exfalso.
    assert (E : filter is_aspect (snd seg) = []).
    { destruct (filter is_aspect (snd seg)); [reflexivity | discriminate]. }
    unfold has_aspect in Ha. apply existsb_exists in Ha as [ent [Hin Hent]].
    assert (Hf : In ent (filter is_aspect (snd seg))) by now apply filter_In.
    rewrite E in Hf. contradiction.
  - destruct (adopt_ok leading _ Hok) as [Hok' [Hhd' Hperm]].
    split; [exact Hok' |]. split; [now rewrite Hhd' |].
    intros _. rewrite <- Hall. apply Hperm. discriminate.
Qed.

Lemma extend_last_ok (groups : list group) (ws : list Py.str) :
  Forall (fun g => g <> []) groups ->
  Forall (fun g => g <> []) (extend_last groups ws)
  /\ map (hd []) (extend_last groups ws) = map (hd []) groups
  /\ (nonempty groups = true ->
      concat (extend_last groups ws) = concat groups ++ ws).
Proof.
  intros H. destruct (nonempty groups) eqn:E.
  - destruct (nonempty_snoc _ E) as [groups' [g ->]].
    rewrite extend_last_snoc.
    apply Forall_app in H as [H Hg]. inversion Hg as [| ? ? Hne _]; subst.
    split.
    + apply Forall_app. split; trivial.
      constructor; [| constructor]. now destruct g.
    + split.
      * rewrite !map_app. f_equal. simpl. now destruct g.
      * intros _. rewrite !concat_app. simpl. now rewrite !app_nil_r, app_assoc.
  - destruct groups; [| discriminate]. repeat split; trivial. discriminate.
Qed.

Lemma nonempty_false {A : Type} (l : list A) : nonempty l = false -> l = [].
Proof. now destruct l. Qed.

Lemma aspects_app (segs segs' : list (Py.str * list entity)) :
  aspects (segs ++ segs') = aspects segs ++ aspects segs'.
Proof. apply flat_map_app. Qed.

Lemma no_aspect_aspects (seg : Py.str * list entity) :
  has_aspect (snd seg) = false -> aspects [seg] = [].
Proof.
  intros H. rewrite aspects_one.
  assert (E : filter is_aspect (snd seg) = []).
  { unfold has_aspect in H.
    induction (snd seg) as [| ent l IH]; simpl in *; trivial.
    apply orb_false_iff in H as [-> H]. now apply IH. }
  now rewrite E.
Qed.

(** One segment, from any state whose groups all have a head. *)
Lemma seg_step_inv (aps : list group) (no_a_words : list Py.str)
    (seg : Py.str * list entity) :
  Forall (fun g => g <> []) aps ->
  Forall (fun g => g <> []) (fst (seg_step (aps, no_a_words) seg))
  /\ map (hd []) (fst (seg_step (aps, no_a_words) seg))
     = map (hd []) aps ++ aspects [seg]
  /\ Permutation
       (concat (fst (seg_step (aps, no_a_words) seg))
        ++ snd (seg_step (aps, no_a_words) seg))
       (concat aps ++ no_a_words ++ opinions [seg]).
Proof.
  intros Hok.
  destruct (seg_groups_ok seg) as [HGok [HGhd HGperm]].
  destruct (has_aspect (snd seg)) eqn:Ha.
  - rewrite (seg_step_has_aspect _ _ _ Ha). cbn [fst snd].
    pose proof (nonempty_seg_groups _ Ha) as HG.
    destruct (extend_last_ok _ no_a_words HGok) as [Hok' [Hhd' Hcat]].
    split; [apply Forall_app; now split |].
    split; [rewrite map_app; f_equal; exact (eq_trans Hhd' HGhd) |].
    rewrite concat_app, (Hcat HG), app_nil_r.
    apply Permutation_app_head.
    rewrite (Permutation_app_comm no_a_words).
    apply Permutation_app_tail. now apply HGperm.
  - rewrite (no_aspect_aspects _ Ha), app_nil_r.
    destruct (nonempty aps) eqn:E.
    + rewrite (seg_step_no_aspect_after _ _ _ Ha E). cbn [fst snd].
      destruct (extend_last_ok _ (opinions [seg]) Hok) as [Hok' [Hhd' Hcat]].
      split; [exact Hok' |]. split; [exact Hhd' |].
      rewrite (Hcat E), <- app_assoc.
      apply Permutation_app_head, Permutation_app_comm.
    + apply nonempty_false in E. subst aps.
      rewrite (seg_step_no_aspect _ _ Ha). cbn [fst snd concat app map].
      split; [constructor |]. split; reflexivity.
Qed.

Lemma seg_loop_inv (segs : list (Py.str * list entity)) :
  forall (aps : list group) (no_a_words : list Py.str),
    Forall (fun g => g <> []) aps ->
    Forall (fun g => g <> []) (fst (fold_left seg_step segs (aps, no_a_words)))
    /\ map (hd []) (fst (fold_left seg_step segs (aps, no_a_words)))
       = map (hd []) aps ++ aspects segs
    /\ Permutation
         (concat (fst (fold_left seg_step segs (aps, no_a_words)))
          ++ snd (fold_left seg_step segs (aps, no_a_words)))
         (concat aps ++ no_a_words ++ opinions segs).
Proof.
  induction segs as [| seg segs IH]; intros aps w Hok; cbn [fold_left].
  - cbn [fst snd]. unfold aspects, opinions. simpl. rewrite !app_nil_r.
    repeat split; trivial.
  - generalize (seg_step_inv aps w seg Hok).
    destruct (seg_step (aps, w) seg) as [aps1 w1]. cbn [fst snd].
    intros [Hok1 [Hhd1 Hperm1]].
    destruct (IH aps1 w1 Hok1) as [Hok2 [Hhd2 Hperm2]].
    change (seg :: segs) with ([seg] ++ segs).
    rewrite aspects_app, opinions_app.
    split; [exact Hok2 |].
    split; [now rewrite Hhd2, Hhd1, app_assoc |].
    rewrite Hperm2, !app_assoc.
    apply Permutation_app_tail. now rewrite <- app_assoc.
Qed.

Lemma first_aspect_split (segs : list (Py.str * list entity)) :
  any_aspect segs = true ->
  exists segs1 seg rest,
    segs = segs1 ++ seg :: rest
    /\ Forall (fun s => has_aspect (snd s) = false) segs1
    /\ has_aspect (snd seg) = true.
Proof.
  unfold any_aspect.
  induction segs as [| seg segs IH]; simpl; [discriminate |].
  destruct (has_aspect (snd seg)) eqn:E; simpl.
  - intros _. exists [], seg, segs. repeat split; trivial.
  - intros H. destruct (IH H) as [segs1 [seg' [rest [-> [Hall Hseg]]]]].
    exists (seg :: segs1), seg', rest. repeat split; trivial.
    now constructor.
Qed.

Lemma no_aspect_all (segs : list (Py.str * list entity)) :
  any_aspect segs = false ->
  Forall (fun s => has_aspect (snd s) = false) segs.
Proof.
  unfold any_aspect.
  induction segs as [| seg segs IH]; simpl; intros H; constructor.
  - now apply orb_false_iff in H.
  - apply IH. now apply orb_false_iff in H.
Qed.

Lemma no_aspect_aspects_all (segs : list (Py.str * list entity)) :
  any_aspect segs = false -> aspects segs = [].
Proof.
  intros H. apply no_aspect_all in H.
  induction H as [| seg segs Hseg _ IH]; trivial.
  change (seg :: segs) with ([seg] ++ segs).
  now rewrite aspects_app, IH, (no_aspect_aspects _ Hseg).
Qed.

(** Once a segment has held an aspect, groups exist and nothing is
    buffered. *)
Lemma seg_loop_any_aspect (segs : list (Py.str * list entity)) :
  any_aspect segs = true ->
  exists aps,
    fold_left seg_step segs ([], []) = (aps, []) /\ nonempty aps = true.
Proof.
  intros H.
  destruct (first_aspect_split _ H) as [segs1 [seg [rest [-> [Hall Hseg]]]]].
  rewrite fold_left_app. cbn [fold_left].
  rewrite (seg_loop_no_aspect _ _ Hall), (seg_step_has_aspect _ _ _ Hseg).
  rewrite !app_nil_l.
  assert (HG : nonempty (extend_last (seg_groups seg) (opinions segs1)) = true)
    by (rewrite nonempty_extend_last; now apply nonempty_seg_groups).
  destruct (seg_loop_later rest _ HG) as [later [tl ->]].
  eexists. split; [reflexivity |].
  apply nonempty_app_l. rewrite nonempty_extend_last. exact HG.
Qed.

Lemma aggregate_inv (segs : list (Py.str * list entity)) :
  Forall (fun ap => ap <> []) (aggregate segs)
  /\ map (hd []) (aggregate segs) = aspects segs ++ sentinel segs
  /\ Permutation (concat (aggregate segs)) (sentinel segs ++ opinions segs).
Proof.
  unfold aggregate, sentinel.
  destruct (any_aspect segs) eqn:E.
  - destruct (seg_loop_any_aspect _ E) as [aps [Hfold _]].
    generalize (seg_loop_inv segs [] [] (Forall_nil _)).
    rewrite Hfold. cbn [fst snd finish nonempty].
    rewrite !app_nil_r. intros [Hok [Hhd Hperm]].
    repeat split; trivial.
  - rewrite (seg_loop_no_aspect _ _ (no_aspect_all _ E)), app_nil_l.
    rewrite (no_aspect_aspects_all _ E). cbn [finish].
    destruct (nonempty (opinions segs)) eqn:Eo; simpl.
    + split; [constructor; [discriminate | constructor] |].
      split; [reflexivity |]. now rewrite app_nil_r.
    + apply nonempty_false in Eo. rewrite Eo.
      split; [constructor |]. split; reflexivity.
Qed.

Lemma decoding_inr (get_entities : list tag -> list entity)
    (text : Py.str) (tag_seq : list tag) (aps : list group) :
  decoding get_entities text tag_seq = inr aps ->
  length text = length tag_seq
  /\ aps = aggregate (ents_list get_entities text tag_seq).
Proof.
  unfold decoding.
  destruct (Nat.eqb_spec (length text) (length tag_seq)) as [E | E];
    [| discriminate].
  intros H. split; [exact E | now inversion H].
Qed.

(** X2.  Every group that [decoding] returns has a first element, so the
    caller's [ap[0]] never fails; and the first elements of the groups, in
    order, are the surface texts of the aspect entities in the order of the
    text, followed by the sentinel [None] exactly when there are entities
    and no aspect among them. *)
Theorem groups_lead_with_aspects (get_entities : list tag -> list entity)
    (text : Py.str) (tag_seq : list tag) (aps : list group) :
  decoding get_entities text tag_seq = inr aps ->
  Forall (fun ap => ap <> []) aps
  /\ map (hd []) aps
     = aspects (ents_list get_entities text tag_seq)
       ++ sentinel (ents_list get_entities text tag_seq).
Proof.
  intros H. apply decoding_inr in H as [_ ->].
  destruct (aggregate_inv (ents_list get_entities text tag_seq)) as [Hok [Hhd _]].
  now split.
Qed.

(** X3.  [decoding] neither drops nor repeats an entity: the strings of all
    groups together are, up to their order, the surface texts of all the
    entities of all segments, with the sentinel [None] added exactly when
    there are entities and no aspect among them. *)
Theorem no_entity_lost (get_entities : list tag -> list entity)
    (text : Py.str) (tag_seq : list tag) (aps : list group) :
  decoding get_entities text tag_seq = inr aps ->
  Permutation (concat aps)
              (sentinel (ents_list get_entities text tag_seq)
               ++ opinions (ents_list get_entities text tag_seq)).
Proof.
  intros H. apply decoding_inr in H as [_ ->].
  now destruct (aggregate_inv (ents_list get_entities text tag_seq)) as [_ [_ Hperm]].
Qed.

(** * The helpers of the demo *)

(** ** The text for the classifier *)

Lemma slice_drop_last {A : Type} (l : list A) :
  Py.slice l 0 (-1) = removelast l.
Proof.
  unfold Py.slice.
  change (Py.adjust (Z.of_nat (length l)) 0) with (Z.min 0 (Z.of_nat (length l))).
  change (Py.adjust (Z.of_nat (length l)) (-1))
    with (Z.max 0 (-1 + Z.of_nat (length l))).
  rewrite removelast_firstn_len.
  replace (Z.to_nat (Z.min 0 (Z.of_nat (length l)))) with 0 by lia.
  rewrite skipn_0. f_equal. lia.
Qed.

Lemma concate_loop (text aspect : Py.str) (opinion_words : list Py.str) :
  forall aspect_text,
    fold_left (concate_step text aspect) opinion_words aspect_text
    = aspect_text
      ++ concat (map (fun w => piece text aspect w ++ [65292%N]) opinion_words).
Proof.
  induction opinion_words as [| w ws IH]; intros acc; cbn [fold_left map concat].
  - now rewrite app_nil_r.
  - rewrite IH. unfold concate_step, piece.
    destruct (is_aspect_first text aspect w); now rewrite <- !app_assoc.
Qed.

Lemma removelast_separated (sep : Py.char) (pieces : list Py.str) :
  removelast (concat (map (fun p => p ++ [sep]) pieces))
  = PyLib.join [sep] pieces.
Proof.
  induction pieces as [| p pieces IH]; trivial.
  cbn [map concat].
  destruct pieces as [| q pieces].
  - cbn [map concat]. rewrite app_nil_r. apply removelast_last.
  - rewrite removelast_app.
    + rewrite IH. cbn [PyLib.join]. now rewrite <- app_assoc.
    + cbn [map concat]. now destruct q.
Qed.

(** X6.  [concate_aspect_and_opinion] joins with the full-width comma, and
    with no comma at the end, one pair per opinion word in the order given:
    the aspect followed by the word when [is_aspect_first] holds, the word
    followed by the aspect otherwise.  Without opinion words the result is
    the empty string. *)
Theorem concate_is_join (text aspect : Py.str) (opinion_words : list Py.str) :
  concate_aspect_and_opinion text aspect opinion_words
  = PyLib.join [65292%N] (map (piece text aspect) opinion_words).
Proof.
  unfold concate_aspect_and_opinion.
  rewrite slice_drop_last, concate_loop, app_nil_l.
  rewrite <- removelast_separated, map_map. reflexivity.
Qed.

Lemma find_from_lower (s sub : Py.str) :
  forall i, (0 <= i)%Z -> (-1 <= PyLib.find_from s sub i)%Z.
Proof.
  induction s as [| c s IH]; intros i Hi; cbn [PyLib.find_from].
  - destruct (PyLib.startswith [] sub); lia.
  - destruct (PyLib.startswith (c :: s) sub); [lia |].
    apply IH. lia.
Qed.

Lemma find_from_absent (s sub : Py.str) :
  absent sub s -> forall i, PyLib.find_from s sub i = (-1)%Z.
Proof.
  unfold absent.
  induction s as [| c s IH]; intros H i; cbn [PyLib.find_from].
  - now rewrite (H 0 : PyLib.startswith [] sub = false).
  - rewrite (H 0 : PyLib.startswith (c :: s) sub = false).
    apply IH. intros k. exact (H (S k)).
Qed.

Lemma find_from_present (s sub : Py.str) :
  forall k i,
    PyLib.startswith (skipn k s) sub = true ->
    (0 <= i)%Z ->
    (i <= PyLib.find_from s sub i <= i + Z.of_nat k)%Z.
Proof.
  induction s as [| c s IH]; intros k i H Hi; cbn [PyLib.find_from].
  - rewrite skipn_nil in H. rewrite H. lia.
  - destruct (PyLib.startswith (c :: s) sub) eqn:E; [lia |].
    destruct k as [| k]; cbn [skipn] in H; [congruence |].
    specialize (IH k (i + 1)%Z H). lia.
Qed.

(** X7.  [is_aspect_first] compares the results of [find], and [find] gives
    -1 for a string that does not occur: an aspect that does not occur in
    [text] counts as first, whatever the opinion word; an aspect that occurs
    does not count as first against an opinion word that does not occur. *)
Theorem is_aspect_first_absent (text aspect opinion_word : Py.str) :
  (absent aspect text -> is_aspect_first text aspect opinion_word = true)
  /\ (absent opinion_word text ->
      forall k, PyLib.startswith (skipn k text) aspect = true ->
      is_aspect_first text aspect opinion_word = false).
Proof.
  unfold is_aspect_first, PyLib.find. split.
  - intros H. rewrite (find_from_absent _ _ H).
    apply Z.leb_le. apply find_from_lower. lia.
  - intros H k Hk. rewrite (find_from_absent _ _ H).
    apply Z.leb_gt.
    pose proof (find_from_present text aspect k 0%Z Hk). lia.
Qed.

(** ** The line read and the tags decoded *)

Lemma lstrip_blank (s : Py.str) :
  Forall (fun c => PyLib.isspace c = true) s -> PyLib.lstrip s = [].
Proof.
  induction 1 as [| c s Hc _ IH]; simpl; trivial. now rewrite Hc.
Qed.

(** X8.  A line the loop processes is cleaned of every space character; and
    a line that is not empty but made of white space only is neither skipped
    nor taken for [quit]: the loop goes on to process the empty text. *)
Theorem read_line (input_text : Py.str) :
  (forall text, read input_text = Process text -> ~ In 32%N text)
  /\ (input_text <> [] ->
      Forall (fun c => PyLib.isspace c = true) input_text ->
      read input_text = Process []).
Proof.
  unfold read. split.
  - intros text H.
    destruct (negb (nonempty input_text)); [discriminate |].
    destruct (PyLib.str_eqb input_text (Py.lit "quit")); [discriminate |].
    inversion H; subst text. unfold PyLib.remove_spaces.
    intros Hin. apply filter_In in Hin as [_ Hin]. discriminate.
  - intros Hne Hall.
    destruct input_text as [| c s]; [now contradiction Hne |].
    cbn [nonempty negb].
    assert (Hq : PyLib.str_eqb (c :: s) (Py.lit "quit") = false).
    { inversion Hall as [| ? ? Hc _]; subst.
      change (Py.lit "quit") with [113; 117; 105; 116]%N.
      cbn [PyLib.str_eqb].
      destruct (N.eqb_spec c 113) as [-> | _]; [discriminate | reflexivity]. }
    rewrite Hq. unfold PyLib.strip.
    now rewrite (lstrip_blank _ Hall).
Qed.

Lemma length_slice_inner {A : Type} (l : list A) :
  length (Py.slice l 1 (-1)) = length l - 2.
Proof.
  unfold Py.slice.
  change (Py.adjust (Z.of_nat (length l)) 1) with (Z.min 1 (Z.of_nat (length l))).
  change (Py.adjust (Z.of_nat (length l)) (-1))
    with (Z.max 0 (-1 + Z.of_nat (length l))).
  rewrite length_firstn, length_skipn. lia.
Qed.

(** * The TextCNN predictor *)

Lemma times_singleton {A : Type} (x : A) (k : Z) :
  PyLib.times [x] k = repeat x (Z.to_nat k).
Proof.
  unfold PyLib.times. induction (Z.to_nat k) as [| n IH]; simpl; trivial.
  now rewrite IH.
Qed.

Lemma example_step_padded (encode : Py.str -> list Z)
    (pad_token_id max_gram_filter_size : Z)
    (examples : list TextCNN.example) (text : Py.str) :
  TextCNN.example_step encode pad_token_id max_gram_filter_size examples text
  = examples ++ [padded encode pad_token_id max_gram_filter_size text].
Proof.
  unfold TextCNN.example_step, TextCNN.preprocess_prediction_data, padded.
  destruct (Z.ltb_spec (Z.of_nat (length (encode text))) max_gram_filter_size).
  - rewrite times_singleton. do 3 f_equal. lia.
  - replace (Z.to_nat _) with 0 by lia. simpl. rewrite app_nil_r.
    do 3 f_equal. lia.
Qed.

Lemma make_examples_map (encode : Py.str -> list Z)
    (pad_token_id max_gram_filter_size : Z) (data : list Py.str) :
  TextCNN.make_examples encode pad_token_id max_gram_filter_size data
  = map (padded encode pad_token_id max_gram_filter_size) data.
Proof.
  unfold TextCNN.make_examples.
  rewrite <- (app_nil_l (map _ data)). generalize (@nil TextCNN.example).
  induction data as [| text data IH]; intros examples; cbn [fold_left map].
  - now rewrite app_nil_r.
  - now rewrite IH, example_step_padded, <- app_assoc.
Qed.

(** X10.  Every example that [predict] builds holds the word ids of its
    text, followed by as many pad ids as the text falls short of
    [max_gram_filter_size]; its sequence length is the number of its ids,
    and is at least [max_gram_filter_size]. *)
Theorem examples_padded (encode : Py.str -> list Z)
    (pad_token_id max_gram_filter_size : Z) (data : list Py.str) :
  TextCNN.make_examples encode pad_token_id max_gram_filter_size data
  = map (padded encode pad_token_id max_gram_filter_size) data
  /\ Forall (fun ex => snd ex = Z.of_nat (length (fst ex))
                       /\ (max_gram_filter_size <= snd ex)%Z)
            (TextCNN.make_examples encode pad_token_id max_gram_filter_size data).
Proof.
  rewrite make_examples_map. split; [reflexivity |].
  apply Forall_forall. intros ex Hex.
  apply in_map_iff in Hex as [text [<- _]].
  unfold padded. cbn [fst snd].
  rewrite length_app, repeat_length. lia.
Qed.

(** ** Batches *)

Lemma firstn_plus {A : Type} (a b : nat) :
  forall l : list A, firstn (a + b) l = firstn a l ++ firstn b (skipn a l).
Proof.
  induction a as [| a IH]; intros [| x l]; simpl; trivial.
  - now rewrite firstn_nil.
  - now rewrite IH.
Qed.

Lemma concat_chunks {A : Type} (l : list A) (s : nat) :
  forall c,
    concat (map (fun k => firstn s (skipn (k * s) l)) (seq 0 c))
    = firstn (c * s) l.
Proof.
  induction c as [| c IH].
  - reflexivity.
  - rewrite seq_S, map_app, concat_app, IH. simpl.
    rewrite app_nil_r, Nat.add_comm. symmetry. apply firstn_plus.
Qed.

Lemma chunk_slice {A : Type} (l : list A) (batch_size : Z) (k : nat) :
  (0 < batch_size)%Z ->
  Py.slice l (Z.of_nat k * batch_size) (Z.of_nat k * batch_size + batch_size)
  = firstn (Z.to_nat batch_size) (skipn (k * Z.to_nat batch_size) l).
Proof.
  intros H.
  replace (Z.of_nat k * batch_size)%Z
    with (Z.of_nat (k * Z.to_nat batch_size)) by lia.
  replace (Z.of_nat (k * Z.to_nat batch_size) + batch_size)%Z
    with (Z.of_nat (k * Z.to_nat batch_size + Z.to_nat batch_size)) by lia.
  rewrite slice_of_nat. f_equal. lia.
Qed.

Lemma chunk_count_bounds (n s : nat) :
  0 < s ->
  n <= chunk_count n s * s < n + s
  /\ forall k, k < chunk_count n s -> k * s < n.
Proof.
  intros Hs. destruct n as [| n]; simpl.
  - split; [lia | intros k Hk; lia].
  - pose proof (Nat.div_mod_eq n s) as Hdiv.
    pose proof (Nat.mod_upper_bound n s) as Hmod.
    split; [nia |]. intros k Hk.
    assert (k <= n / s) by lia. nia.
Qed.

Lemma make_batches_chunks (examples : list TextCNN.example) (batch_size : Z) :
  (0 < batch_size)%Z ->
  TextCNN.make_batches examples batch_size
  = inr (map (fun k => firstn (Z.to_nat batch_size)
                              (skipn (k * Z.to_nat batch_size) examples))
             (seq 0 (chunk_count (length examples) (Z.to_nat batch_size)))).
Proof.
  intros H. unfold TextCNN.make_batches, TextCNN.range0.
  destruct (Z.eqb_spec batch_size 0) as [E | _]; [lia |].
  destruct (Z.ltb_spec batch_size 0) as [E | _]; [lia |].
  fold (chunk_count (length examples) (Z.to_nat batch_size)).
  rewrite map_map. f_equal.
  apply map_ext. intros k. now apply chunk_slice.
Qed.

Lemma batches_facts (examples : list TextCNN.example) (batch_size : Z) :
  (0 < batch_size)%Z ->
  exists batches,
    TextCNN.make_batches examples batch_size = inr batches
    /\ concat batches = examples
    /\ Forall (fun batch => 0 < length batch <= Z.to_nat batch_size) batches
    /\ (forall k batch,
          nth_error batches k = Some batch ->
          S k < length batches ->
          length batch = Z.to_nat batch_size)
    /\ length examples <= length batches * Z.to_nat batch_size
       < length examples + Z.to_nat batch_size.
Proof.
  intros H. rewrite (make_batches_chunks _ _ H).
  set (s := Z.to_nat batch_size). set (n := length examples).
  assert (Hs : 0 < s) by (unfold s; lia).
  destruct (chunk_count_bounds n s Hs) as [Hc Hk].
  eexists. split; [reflexivity |].
  split.
  { rewrite concat_chunks. apply firstn_all2. fold n. lia. }
  split.
  { apply Forall_forall. intros batch Hb.
    apply in_map_iff in Hb as [k [<- Hin]]. apply in_seq in Hin.
    rewrite length_firstn, length_skipn. fold n.
    specialize (Hk k). lia. }
  split.
  { intros k batch Hnth Hlast.
    rewrite length_map, length_seq in Hlast.
    rewrite nth_error_map in Hnth.
    rewrite nth_error_seq in Hnth.
    destruct (Nat.ltb_spec k (chunk_count n s)); [| discriminate].
    simpl in Hnth. inversion Hnth; subst batch.
    rewrite length_firstn, length_skipn. fold n.
    specialize (Hk (S k) Hlast). simpl in Hk. lia. }
  rewrite length_map, length_seq. exact Hc.
Qed.

(** X11.  For a positive [batch_size] the batches cut the examples in
    order: put end to end they give the examples back, none is empty or
    longer than [batch_size], every batch but the last has exactly
    [batch_size] examples, and there are as few batches as can hold the
    examples. *)
Theorem batches_partition (examples : list TextCNN.example) (batch_size : Z) :
  (0 < batch_size)%Z ->
  exists batches,
    TextCNN.make_batches examples batch_size = inr batches
    /\ concat batches = examples
    /\ Forall (fun batch => 0 < length batch <= Z.to_nat batch_size) batches
    /\ (forall k batch,
          nth_error batches k = Some batch ->
          S k < length batches ->
          length batch = Z.to_nat batch_size)
    /\ length examples <= length batches * Z.to_nat batch_size
       < length examples + Z.to_nat batch_size.
Proof.
  intros H. destruct (batches_facts examples batch_size H) as [batches Hb].
  exists batches. exact Hb.
Qed.

(** X12.  A [batch_size] of zero makes [predict] fail with the
    [ValueError] of [range], even without data; a negative [batch_size]
    makes no batch, and [predict] returns no label at all, whatever the
    data. *)
Theorem predict_bad_batch_size (encode : Py.str -> list Z)
    (infer : list TextCNN.example -> list Z) (label_map : Z -> option string)
    (data : list Py.str) (batch_size pad_token_id max_gram_filter_size : Z) :
  (batch_size = 0%Z ->
   TextCNN.predict encode infer label_map data batch_size pad_token_id
                   max_gram_filter_size
   = inl TextCNN.ValueError)
  /\ ((batch_size < 0)%Z ->
      TextCNN.predict encode infer label_map data batch_size pad_token_id
                      max_gram_filter_size
      = inr []).
Proof.
  unfold TextCNN.predict, TextCNN.make_batches, TextCNN.range0. split.
  - intros ->. reflexivity.
  - intros H.
    destruct (Z.eqb_spec batch_size 0) as [E | _]; [lia |].
    destruct (Z.ltb_spec batch_size 0) as [_ | E]; [reflexivity | lia].
Qed.

Lemma lookup_all_ok (label_map : Z -> option string) (idx : list Z) :
  (forall i, In i idx -> label_map i <> None) ->
  exists labels,
    TextCNN.lookup_all label_map idx = inr labels
    /\ length labels = length idx.
Proof.
  induction idx as [| i idx IH]; intros H; cbn [TextCNN.lookup_all].
  - now exists [].
  - destruct (label_map i) as [label |] eqn:E.
    + destruct IH as [labels [-> Hlen]]; [intros j Hj; apply H; now right |].
      exists (label :: labels). split; [reflexivity | simpl; now rewrite Hlen].
    + exfalso. apply (H i); [now left | exact E].
Qed.

Lemma batch_loop_ok (infer : list TextCNN.example -> list Z)
    (label_map : Z -> option string) (batches : list (list TextCNN.example)) :
  (forall batch i, In batch batches -> In i (infer batch) -> label_map i <> None) ->
  (forall batch, In batch batches -> length (infer batch) = length batch) ->
  forall results,
    exists labels,
      fold_left (TextCNN.batch_step infer label_map) batches (inr results)
      = inr (results ++ labels)
      /\ length labels = length (concat batches).
Proof.
  induction batches as [| batch batches IH]; intros Hmap Hrows results;
    cbn [fold_left concat].
  - exists []. now rewrite app_nil_r.
  - destruct (lookup_all_ok label_map (infer batch)) as [labels [Hl Hlen]].
    { intros i Hi. apply (Hmap batch); [now left | exact Hi]. }
    cbn [TextCNN.batch_step]. rewrite Hl.
    destruct (IH (fun b i Hb => Hmap b i (or_intror Hb))
                 (fun b Hb => Hrows b (or_intror Hb))
                 (results ++ labels)) as [labels' [-> Hlen']].
    exists (labels ++ labels'). split; [now rewrite app_assoc |].
    rewrite !length_app, Hlen, Hlen', (Hrows batch); [reflexivity | now left].
Qed.

(** X13.  With a positive [batch_size], an inference step that gives one
    index for each example of a batch that is not empty, and a label for
    every index it gives, [predict] returns exactly one label for each text
    of [data]. *)
Theorem predict_one_label_per_text (encode : Py.str -> list Z)
    (infer : list TextCNN.example -> list Z) (label_map : Z -> option string)
    (data : list Py.str) (batch_size pad_token_id max_gram_filter_size : Z) :
  (0 < batch_size)%Z ->
  (forall batch, batch <> [] -> length (infer batch) = length batch) ->
  (forall batch i, In i (infer batch) -> label_map i <> None) ->
  exists labels,
    TextCNN.predict encode infer label_map data batch_size pad_token_id
                    max_gram_filter_size
    = inr labels
    /\ length labels = length data.
Proof.
  intros Hpos Hrows Hmap. unfold TextCNN.predict.
  destruct (batches_facts
              (TextCNN.make_examples encode pad_token_id max_gram_filter_size data)
              batch_size Hpos)
    as [batches [-> [Hcat [Hall _]]]].
  destruct (batch_loop_ok infer label_map batches) with (results := @nil string)
    as [labels [-> Hlen]].
  - intros batch i _. apply Hmap.
  - intros batch Hb. apply Hrows.
    rewrite Forall_forall in Hall. specialize (Hall batch Hb).
    destruct batch; [simpl in Hall; lia | discriminate].
  - exists labels. split; [reflexivity |].
    rewrite Hlen, Hcat, make_examples_map. apply length_map.
Qed.

(** ** The further theorems at concrete inputs *)

(** X2 on [g,ab]. *)
Lemma groups_lead_with_aspects_witness :
  decoding Seqeval.get_entities (Py.lit "g,ab")
           ["B-Opinion"; "O"; "B-Aspect"; "B-Aspect"]%string
  = inr [[Py.lit "a"]; [Py.lit "b"; Py.lit "g"]]
  /\ Forall (fun ap : group => ap <> []) [[Py.lit "a"]; [Py.lit "b"; Py.lit "g"]]
  /\ map (hd []) [[Py.lit "a"]; [Py.lit "b"; Py.lit "g"]]
     = aspects (ents_list Seqeval.get_entities (Py.lit "g,ab")
                  ["B-Opinion"; "O"; "B-Aspect"; "B-Aspect"]%string)
       ++ sentinel (ents_list Seqeval.get_entities (Py.lit "g,ab")
                      ["B-Opinion"; "O"; "B-Aspect"; "B-Aspect"]%string).
Proof.
  split; [reflexivity |].
  apply (groups_lead_with_aspects Seqeval.get_entities (Py.lit "g,ab")
           ["B-Opinion"; "O"; "B-Aspect"; "B-Aspect"]%string).
  reflexivity.
Defined.

(** X3 on [g,ab]. *)
Lemma no_entity_lost_witness :
  decoding Seqeval.get_entities (Py.lit "g,ab")
           ["B-Opinion"; "O"; "B-Aspect"; "B-Aspect"]%string
  = inr [[Py.lit "a"]; [Py.lit "b"; Py.lit "g"]]
  /\ Permutation
       (concat [[Py.lit "a"]; [Py.lit "b"; Py.lit "g"]])
       (sentinel (ents_list Seqeval.get_entities (Py.lit "g,ab")
                    ["B-Opinion"; "O"; "B-Aspect"; "B-Aspect"]%string)
        ++ opinions (ents_list Seqeval.get_entities (Py.lit "g,ab")
                       ["B-Opinion"; "O"; "B-Aspect"; "B-Aspect"]%string)).
Proof.
  split; [reflexivity |].
  apply (no_entity_lost Seqeval.get_entities (Py.lit "g,ab")
           ["B-Opinion"; "O"; "B-Aspect"; "B-Aspect"]%string).
  reflexivity.
Defined.

(** X11 on three examples in batches of two. *)
Lemma batches_partition_witness :
  (0 < 2)%Z
  /\ exists batches,
       TextCNN.make_batches [([1%Z], 1%Z); ([2%Z], 1%Z); ([3%Z], 1%Z)] 2 = inr batches
       /\ concat batches = [([1%Z], 1%Z); ([2%Z], 1%Z); ([3%Z], 1%Z)]
       /\ Forall (fun batch => 0 < length batch <= Z.to_nat 2) batches
       /\ (forall k batch,
             nth_error batches k = Some batch ->
             S k < length batches ->
             length batch = Z.to_nat 2)
       /\ length [([1%Z], 1%Z); ([2%Z], 1%Z); ([3%Z], 1%Z)]
          <= length batches * Z.to_nat 2
          < length [([1%Z], 1%Z); ([2%Z], 1%Z); ([3%Z], 1%Z)] + Z.to_nat 2.
Proof.
  split; [reflexivity |].
  apply (batches_partition [([1%Z], 1%Z); ([2%Z], 1%Z); ([3%Z], 1%Z)] 2).
  reflexivity.
Defined.

(** X13 with the label dictionary of the script, on three texts in batches
    of two, for an inference step that answers 1 for every example. *)
Lemma predict_one_label_per_text_witness :
  (0 < 2)%Z
  /\ (forall batch : list TextCNN.example,
        batch <> [] -> length (map (fun _ => 1%Z) batch) = length batch)
  /\ (forall (batch : list TextCNN.example) i,
        In i (map (fun _ => 1%Z) batch) -> label_map_of_script i <> None)
  /\ exists labels,
       TextCNN.predict (map Z.of_N) (map (fun _ => 1%Z)) label_map_of_script
                       [Py.lit "ab"; Py.lit "c"; Py.lit "defg"] 2 0 3
       = inr labels
       /\ length labels = length [Py.lit "ab"; Py.lit "c"; Py.lit "defg"].
Proof.
  assert (Hrows : forall batch : list TextCNN.example,
             batch <> [] -> length (map (fun _ => 1%Z) batch) = length batch).
  { intros batch _. apply length_map. }
  assert (Hmap : forall (batch : list TextCNN.example) i,
             In i (map (fun _ => 1%Z) batch) -> label_map_of_script i <> None).
  { intros batch i Hi. apply in_map_iff in Hi as [ex [<- _]]. discriminate. }
  split; [reflexivity |]. split; [exact Hrows |]. split; [exact Hmap |].
  apply (predict_one_label_per_text (map Z.of_N) (map (fun _ => 1%Z))
           label_map_of_script [Py.lit "ab"; Py.lit "c"; Py.lit "defg"] 2 0 3).
  - reflexivity.
  - exact Hrows.
  - exact Hmap.
Defined.

(** * Where the buffered opinions go *)

Lemma extend_last_unfold (groups : list group) (ws : list Py.str) :
  nonempty groups = true ->
  extend_last groups ws = removelast groups ++ [last groups [] ++ ws].
Proof. now destruct groups. Qed.

Lemma seg_blocks_groups (seg : Py.str * list entity) :
  seg_groups seg = seg_blocks seg.
Proof.
  rewrite seg_groups_blocks. unfold seg_blocks.
  now destruct (snd (blocks (fst seg) (snd seg))).
Qed.

(** Segments without an aspect, after a group exists: their texts all go to
    the last group. *)
Lemma seg_loop_no_aspect_after (segs : list (Py.str * list entity)) :
  forall (aps : list group) (no_a_words : list Py.str),
    nonempty aps = true ->
    Forall (fun s => has_aspect (snd s) = false) segs ->
    fold_left seg_step segs (aps, no_a_words)
    = (extend_last aps (opinions segs), no_a_words).
Proof.
  induction segs as [| seg segs IH]; intros aps w Haps Hall; cbn [fold_left].
  - unfold opinions. simpl. now rewrite extend_last_nil.
  - inversion Hall as [| ? ? Hseg Hsegs]; subst.
    rewrite (seg_step_no_aspect_after _ _ _ Hseg Haps).
    rewrite IH; trivial; [| now rewrite nonempty_extend_last].
    rewrite extend_last_twice.
    change (seg :: segs) with ([seg] ++ segs). now rewrite opinions_app.
Qed.

(** With a group at hand and nothing buffered, the groups before the ones
    at hand play no part. *)
Lemma seg_loop_shift (segs : list (Py.str * list entity)) :
  forall (front aps : list group),
    nonempty aps = true ->
    fold_left seg_step segs (front ++ aps, [])
    = (front ++ fst (fold_left seg_step segs (aps, [])), [])
    /\ snd (fold_left seg_step segs (aps, [])) = [].
Proof.
  induction segs as [| seg segs IH]; intros front aps Haps; cbn [fold_left].
  - now split.
  - destruct (has_aspect (snd seg)) eqn:E.
    + rewrite !(seg_step_has_aspect _ _ _ E), extend_last_nil, <- app_assoc.
      apply IH. now apply nonempty_app_l.
    + rewrite !(seg_step_no_aspect_after _ _ _ E);
        trivial; [| now apply nonempty_app_r].
      rewrite (extend_last_app _ _ _ Haps).
      apply IH. now rewrite nonempty_extend_last.
Qed.

(** From a segment with an aspect on, and nothing buffered, the groups made
    are those of the segments taken alone. *)
Lemma seg_loop_from_aspect (segs : list (Py.str * list entity))
    (aps : list group) :
  (forall s, hd_error segs = Some s -> has_aspect (snd s) = true) ->
  fold_left seg_step segs (aps, []) = (aps ++ aggregate segs, []).
Proof.
  intros Hhd. unfold aggregate. destruct segs as [| seg segs]; cbn [fold_left].
  - simpl. now rewrite app_nil_r.
  - assert (E : has_aspect (snd seg) = true) by now apply Hhd.
    rewrite !(seg_step_has_aspect _ _ _ E), extend_last_nil, app_nil_l.
    destruct (seg_loop_shift segs aps (seg_groups seg) (nonempty_seg_groups _ E))
      as [Hfold Hnil].
    rewrite Hfold.
    destruct (fold_left seg_step segs (seg_groups seg, [])) as [groups w].
    cbn [fst snd] in *. subst w. reflexivity.
Qed.

Lemma aggregate_where_orphans_go
    (segs rest1 rest2 : list (Py.str * list entity)) (seg : Py.str * list entity) :
  Forall (fun s => has_aspect (snd s) = false) segs ->
  has_aspect (snd seg) = true ->
  Forall (fun s => has_aspect (snd s) = false) rest1 ->
  (forall s, hd_error rest2 = Some s -> has_aspect (snd s) = true) ->
  seg_blocks seg <> []
  /\ aggregate (segs ++ seg :: rest1 ++ rest2)
     = removelast (seg_blocks seg)
       ++ (last (seg_blocks seg) [] ++ opinions segs ++ opinions rest1)
       :: aggregate rest2.
Proof.
  intros Hsegs Hseg Hrest1 Hrest2.
  pose proof (nonempty_seg_groups _ Hseg) as HG.
  rewrite seg_blocks_groups in HG.
  split; [intros E; rewrite E in HG; discriminate |].
  unfold aggregate at 1.
  rewrite fold_left_app. cbn [fold_left]. rewrite fold_left_app.
  rewrite (seg_loop_no_aspect _ _ Hsegs), (seg_step_has_aspect _ _ _ Hseg).
  rewrite !app_nil_l, seg_blocks_groups.
  rewrite seg_loop_no_aspect_after; trivial;
    [| now rewrite nonempty_extend_last].
  rewrite extend_last_twice, (seg_loop_from_aspect _ _ Hrest2).
  cbn [finish nonempty].
  rewrite (extend_last_unfold _ _ HG), <- app_assoc. reflexivity.
Qed.

(** C1, as the code has it.  Let the segments before [seg] hold no aspect,
    let [seg] be the first segment with one, let the segments [rest1] right
    after it hold no aspect either, and let [rest2], the rest, start with a
    segment that holds one.  Then the opinion strings buffered from the
    earlier segments are all attached, in order, to the LAST group that
    [seg] emits (its first group only when it emits a single one), behind
    the words that group has of its own and ahead of the opinion strings of
    [rest1]; the other groups of [seg] come before it as [seg] emits them;
    and the groups after it are those of [rest2] decoded alone, so the
    buffered strings stand nowhere else. *)
Theorem orphans_join_last_group (get_entities : list tag -> list entity)
    (text : Py.str) (tag_seq : list tag)
    (segs rest1 rest2 : list (Py.str * list entity)) (seg : Py.str * list entity) :
  length text = length tag_seq ->
  ents_list get_entities text tag_seq = segs ++ seg :: rest1 ++ rest2 ->
  Forall (fun s => has_aspect (snd s) = false) segs ->
  has_aspect (snd seg) = true ->
  Forall (fun s => has_aspect (snd s) = false) rest1 ->
  (forall s, hd_error rest2 = Some s -> has_aspect (snd s) = true) ->
  seg_blocks seg <> []
  /\ decoding get_entities text tag_seq
     = inr (removelast (seg_blocks seg)
            ++ (last (seg_blocks seg) [] ++ opinions segs ++ opinions rest1)
            :: aggregate rest2).
Proof.
  intros Hlen Hents Hsegs Hseg Hrest1 Hrest2.
  rewrite (decoding_ok _ _ _ Hlen), Hents.
  destruct (aggregate_where_orphans_go segs rest1 rest2 seg Hsegs Hseg Hrest1 Hrest2)
    as [Hne ->].
  now split.
Qed.

(** C1 on [g,ab,h,c]: the opinion [g] alone, then the aspects [a] and [b],
    then the opinion [h] alone, then the aspect [c].  [g] joins the group of
    [b], ahead of [h]. *)
Lemma orphans_join_last_group_witness :
  length (Py.lit "g,ab,h,c")
  = length ["B-Opinion"; "O"; "B-Aspect"; "B-Aspect"; "O"; "B-Opinion"; "O";
            "B-Aspect"]%string
  /\ ents_list Seqeval.get_entities (Py.lit "g,ab,h,c")
       ["B-Opinion"; "O"; "B-Aspect"; "B-Aspect"; "O"; "B-Opinion"; "O";
        "B-Aspect"]%string
     = [(Py.lit "g", [("Opinion"%string, 0%Z, 0%Z)])]
       ++ (Py.lit ",ab", [("Aspect"%string, 1%Z, 1%Z); ("Aspect"%string, 2%Z, 2%Z)])
       :: [(Py.lit ",h", [("Opinion"%string, 1%Z, 1%Z)])]
       ++ [(Py.lit ",c", [("Aspect"%string, 1%Z, 1%Z)])]
  /\ decoding Seqeval.get_entities (Py.lit "g,ab,h,c")
       ["B-Opinion"; "O"; "B-Aspect"; "B-Aspect"; "O"; "B-Opinion"; "O";
        "B-Aspect"]%string
     = inr [[Py.lit "a"]; [Py.lit "b"; Py.lit "g"; Py.lit "h"]; [Py.lit "c"]].
Proof.
  split; [reflexivity |]. split; [reflexivity |].
  refine (eq_trans
            (proj2 (orphans_join_last_group Seqeval.get_entities (Py.lit "g,ab,h,c")
                      ["B-Opinion"; "O"; "B-Aspect"; "B-Aspect"; "O"; "B-Opinion";
                       "O"; "B-Aspect"]%string
                      [(Py.lit "g", [("Opinion"%string, 0%Z, 0%Z)])]
                      [(Py.lit ",h", [("Opinion"%string, 1%Z, 1%Z)])]
                      [(Py.lit ",c", [("Aspect"%string, 1%Z, 1%Z)])]
                      (Py.lit ",ab",
                       [("Aspect"%string, 1%Z, 1%Z); ("Aspect"%string, 2%Z, 2%Z)])
                      _ _ _ _ _ _))
            _).
  - reflexivity.
  - reflexivity.
  - repeat constructor.
  - reflexivity.
  - repeat constructor.
  - intros s Hs. inversion Hs. reflexivity.
  - reflexivity.
Defined.

(** X5.  Once some segment has held an aspect, the result has a group, and
    one more segment at the end does one of two things: with an aspect, its
    own groups, made by the aspect each of its entities follows, come after
    the groups of the result; without an aspect, the texts of its entities
    come at the end of the LAST group of the result, and every other group
    stays as it is. *)
Theorem aggregate_one_more_segment (segs : list (Py.str * list entity))
    (seg : Py.str * list entity) :
  any_aspect segs = true ->
  aggregate segs <> []
  /\ aggregate (segs ++ [seg])
     = if has_aspect (snd seg)
       then aggregate segs ++ seg_blocks seg
       else removelast (aggregate segs)
            ++ [last (aggregate segs) [] ++ opinions [seg]].
Proof.
  intros H. unfold aggregate.
  destruct (seg_loop_any_aspect _ H) as [aps [Hfold Haps]].
  rewrite fold_left_app, Hfold. cbn [fold_left finish nonempty].
  split; [intros E; rewrite E in Haps; discriminate |].
  destruct (has_aspect (snd seg)) eqn:E.
  - now rewrite (seg_step_has_aspect _ _ _ E), extend_last_nil, seg_blocks_groups.
  - rewrite (seg_step_no_aspect_after _ _ _ E Haps).
    now rewrite (extend_last_unfold _ _ Haps).
Qed.

(** X5 on a segment with the aspects [a] and [b], followed by a segment
    with the opinion [g] alone: [g] joins the group of [b]. *)
Lemma aggregate_one_more_segment_witness :
  any_aspect [(Py.lit "ab", [("Aspect"%string, 0%Z, 0%Z); ("Aspect"%string, 1%Z, 1%Z)])]
  = true
  /\ aggregate [(Py.lit "ab", [("Aspect"%string, 0%Z, 0%Z); ("Aspect"%string, 1%Z, 1%Z)])]
     = [[Py.lit "a"]; [Py.lit "b"]]
  /\ aggregate ([(Py.lit "ab", [("Aspect"%string, 0%Z, 0%Z); ("Aspect"%string, 1%Z, 1%Z)])]
                ++ [(Py.lit ",g", [("Opinion"%string, 1%Z, 1%Z)])])
     = [[Py.lit "a"]; [Py.lit "b"; Py.lit "g"]].
Proof.
  split; [reflexivity |]. split; [reflexivity |].
  exact (eq_trans
           (proj2 (aggregate_one_more_segment
                     [(Py.lit "ab",
                       [("Aspect"%string, 0%Z, 0%Z); ("Aspect"%string, 1%Z, 1%Z)])]
                     (Py.lit ",g", [("Opinion"%string, 1%Z, 1%Z)])
                     eq_refl))
           eq_refl).
Defined.

(** * The exceptions of [decoding] *)

Section RaisingProperties.

Variable E : Type.
Variable get_entities : list tag -> E + list entity.

Lemma last_extend_ok (groups : list group) (ws : list Py.str) :
  nonempty groups = true ->
  Raising.last_extend (E := E) groups ws = inr (extend_last groups ws).
Proof. now destruct groups. Qed.

Lemma for_each_total {A S : Type} (body : S -> A -> Raising.error E + S)
    (f : S -> A -> S) :
  (forall st x, body st x = inr (f st x)) ->
  forall l st, Raising.for_each body l st = inr (fold_left f l st).
Proof.
  intros H. induction l as [| x l IH]; intros st; cbn [Raising.for_each fold_left].
  - reflexivity.
  - now rewrite H, IH.
Qed.

(** The guards of the entity loop keep [[-1]] away from an empty list. *)
Lemma raising_ent_step (sub_text : Py.str) (st : list group * list Py.str)
    (ent : entity) :
  Raising.ent_step (E := E) sub_text st ent = inr (ent_step sub_text st ent).
Proof.
  destruct st as [sub_aps w], ent as [[ent_name start] end_].
  unfold Raising.ent_step, ent_step.
  destruct (String.eqb ent_name "Aspect").
  - destruct (nonempty w) eqn:Ew; [| reflexivity].
    now rewrite last_extend_ok by (now apply nonempty_app_r).
  - destruct (nonempty sub_aps) eqn:Ea; [| reflexivity].
    now rewrite last_extend_ok.
Qed.

(** So do the guards of the segment loop. *)
Lemma raising_seg_step (st : list group * list Py.str)
    (seg : Py.str * list entity) :
  Raising.seg_step (E := E) st seg = inr (seg_step st seg).
Proof.
  destruct st as [aps w], seg as [sub_text ent_list].
  unfold Raising.seg_step, seg_step.
  rewrite (for_each_total _ _ (raising_ent_step sub_text)).
  destruct (fold_left (ent_step sub_text) ent_list ([], [])) as [sub_aps sub_w].
  destruct (nonempty sub_aps) eqn:Es.
  - destruct (nonempty w) eqn:Ew; [| reflexivity].
    now rewrite last_extend_ok by (now apply nonempty_app_r).
  - destruct (nonempty sub_w); [| reflexivity].
    destruct (nonempty aps) eqn:Ea; [| reflexivity].
    now rewrite last_extend_ok.
Qed.

(** The loop over the segments' tags stops at the first segment on which
    the extractor raises. *)
Lemma raising_ents_loop (pairs : list (Py.str * list tag)) :
  forall ents_list,
    match Raising.for_each (Raising.ents_step get_entities) pairs ents_list with
    | inl (Raising.Extractor e) =>
        exists front tags back,
          map snd pairs = front ++ tags :: back
          /\ get_entities tags = inl e
          /\ Forall (Raising.returns get_entities) front
    | inl _ => False
    | inr l =>
        Forall (Raising.returns get_entities) (map snd pairs)
        /\ l = ents_list
               ++ map (fun '(sub_text, sub_tag_seq) =>
                         (sub_text, Raising.returned get_entities sub_tag_seq))
                      pairs
    end.
Proof.
  induction pairs as [| [sub_text tags] pairs IH]; intros acc;
    cbn [Raising.for_each map].
  - split; [constructor | now rewrite app_nil_r].
  - unfold Raising.ents_step at 1.
    destruct (get_entities tags) as [e | ents] eqn:Eg.
    + exists [], tags, (map snd pairs). repeat split; trivial.
    + specialize (IH (acc ++ [(sub_text, ents)])).
      destruct (Raising.for_each (Raising.ents_step get_entities) pairs
                  (acc ++ [(sub_text, ents)])) as [[msg | | e] | l].
      * exact IH.
      * exact IH.
      * destruct IH as [front [tags' [back [Hsplit [He Hfront]]]]].
        exists (tags :: front), tags', back. cbn [snd].
        split; [now rewrite Hsplit |]. split; [exact He |].
        constructor; [now exists ents | exact Hfront].
      * destruct IH as [Hall ->]. cbn [snd]. split.
        -- constructor; [now exists ents | exact Hall].
        -- unfold Raising.returned at 2. rewrite Eg. now rewrite <- app_assoc.
Qed.

Lemma map_snd_combine {A B : Type} (l : list A) (l' : list B) :
  length l = length l' -> map snd (combine l l') = l'.
Proof.
  revert l'. induction l as [| x l IH]; intros [| y l'] H; try discriminate.
  - reflexivity.
  - simpl. f_equal. apply IH. now injection H.
Qed.

Lemma raising_decoding_ok (text : Py.str) (tag_seq : list tag) :
  length text = length tag_seq ->
  match Raising.decoding get_entities text tag_seq with
  | inl (Raising.Extractor e) =>
      exists front tags back,
        sub_tag_seqs text tag_seq = front ++ tags :: back
        /\ get_entities tags = inl e
        /\ Forall (Raising.returns get_entities) front
  | inl _ => False
  | inr aps =>
      Forall (Raising.returns get_entities) (sub_tag_seqs text tag_seq)
      /\ decoding (Raising.returned get_entities) text tag_seq = inr aps
  end.
Proof.
  intros Hlen. rewrite (decoding_ok _ _ _ Hlen).
  unfold Raising.decoding, ents_list. rewrite Hlen, Nat.eqb_refl. cbn [negb].
  pose proof (length_segments text tag_seq) as Hsegs.
  unfold sub_texts, sub_tag_seqs in *.
  destruct (segments text tag_seq) as [ts gs]. cbn [fst snd] in *.
  pose proof (raising_ents_loop (combine ts gs) []) as Hloop.
  rewrite (map_snd_combine _ _ Hsegs) in Hloop.
  destruct (Raising.for_each (Raising.ents_step get_entities) (combine ts gs) [])
    as [[msg | | e] | l]; trivial.
  destruct Hloop as [Hall ->]. rewrite app_nil_l.
  rewrite (for_each_total _ _ raising_seg_step).
  split; [exact Hall | reflexivity].
Qed.

End RaisingProperties.

(** C7, as the code has it.  [decoding] raises its assertion exactly when
    the two lengths differ, whatever the span extractor would do, since the
    check comes first; the message is that of the two lengths, and two
    different pairs of lengths never share a message.  This is the only
    exception [decoding] raises of its own: its indexing of the last group
    is guarded and never fails.  With equal lengths the call ends in the
    exception of the span extractor on the first segment of tags on which
    it raises, if there is one; otherwise it returns, and returns the groups
    made of the entities the extractor returned. *)
Theorem length_mismatch (E : Type) (get_entities : list tag -> E + list entity)
    (text : Py.str) (tag_seq : list tag) :
  (length text <> length tag_seq <->
   exists msg,
     Raising.decoding get_entities text tag_seq = inl (Raising.AssertionError msg))
  /\ (forall msg,
       Raising.decoding get_entities text tag_seq = inl (Raising.AssertionError msg) ->
       msg = mismatch_msg (length text) (length tag_seq))
  /\ (forall n m n' m', mismatch_msg n m = mismatch_msg n' m' -> n = n' /\ m = m')
  /\ Raising.decoding get_entities text tag_seq <> inl Raising.IndexError
  /\ (forall e,
       Raising.decoding get_entities text tag_seq = inl (Raising.Extractor e) ->
       length text = length tag_seq
       /\ exists front tags back,
            sub_tag_seqs text tag_seq = front ++ tags :: back
            /\ get_entities tags = inl e
            /\ Forall (Raising.returns get_entities) front)
  /\ (forall aps,
       Raising.decoding get_entities text tag_seq = inr aps ->
       length text = length tag_seq
       /\ Forall (Raising.returns get_entities) (sub_tag_seqs text tag_seq)
       /\ decoding (Raising.returned get_entities) text tag_seq = inr aps).
Proof.
  destruct (Nat.eq_dec (length text) (length tag_seq)) as [Hlen | Hlen].
  - pose proof (raising_decoding_ok E get_entities text tag_seq Hlen) as H.
    destruct (Raising.decoding get_entities text tag_seq) as [[msg | | e] | aps];
      try contradiction.
    + split; [split; [contradiction | intros [msg H']; discriminate] |].
      split; [discriminate |]. split; [apply mismatch_msg_inj |].
      split; [discriminate |].
      split; [| discriminate].
      intros e' He. inversion He; subst e'. now split.
    + split; [split; [contradiction | intros [msg H']; discriminate] |].
      split; [discriminate |]. split; [apply mismatch_msg_inj |].
      split; [discriminate |].
      split; [discriminate |].
      intros aps' Haps. inversion Haps; subst aps'. now split.
  - assert (Hdec : Raising.decoding get_entities text tag_seq
                   = inl (Raising.AssertionError
                            (mismatch_msg (length text) (length tag_seq)))).
    { unfold Raising.decoding.
      destruct (Nat.eqb_spec (length text) (length tag_seq)); [contradiction |].
      reflexivity. }
    rewrite Hdec.
    split; [split; [eauto | trivial] |].
    split; [intros msg H; now inversion H |].
    split; [apply mismatch_msg_inj |].
    split; [discriminate |].
    split; discriminate.
Qed.

(** C7, as stated, fails: on the text [a] with the one tag that is the
    empty string the lengths agree, and [decoding] ends in the exception
    the span extractor raises on that tag. *)
Lemma extractor_exception_let_through :
  length (Py.lit "a") = length [""%string]
  /\ sub_tag_seqs (Py.lit "a") [""%string] = [[""%string]]
  /\ SeqevalRaising.get_entities [""%string]
     = inl SeqevalRaising.StringIndexError
  /\ Raising.decoding SeqevalRaising.get_entities (Py.lit "a") [""%string]
     = inl (Raising.Extractor SeqevalRaising.StringIndexError).
Proof. repeat split. Qed.

(** * The extraction step of the demo *)

Lemma labels_of_first (ext_id2label : Z -> option tag) (predictions : list Z) :
  match labels_of ext_id2label predictions with
  | inl (KeyError key) =>
      exists before after,
        predictions = before ++ key :: after
        /\ ext_id2label key = None
        /\ forall idx, In idx before -> ext_id2label idx <> None
  | inl (Raised _) => False
  | inr labels => map ext_id2label predictions = map Some labels
  end.
Proof.
  induction predictions as [| idx predictions IH]; cbn [labels_of].
  - reflexivity.
  - destruct (ext_id2label idx) as [label |] eqn:E.
    + destruct (labels_of ext_id2label predictions) as [[key | e] | labels].
      * destruct IH as [before [after [-> [Hkey Hbefore]]]].
        exists (idx :: before), after. repeat split; trivial.
        intros idx' [<- | Hin]; [congruence | now apply Hbefore].
      * exact IH.
      * cbn [map]. now rewrite E, IH.
    + exists [], predictions. repeat split; trivial. intros idx' [].
Qed.

Lemma all_labelled (ext_id2label : Z -> option tag) (predictions : list Z)
    (labels : list tag) :
  map ext_id2label predictions = map Some labels ->
  length labels = length predictions
  /\ forall idx, In idx predictions -> ext_id2label idx <> None.
Proof.
  intros H. split.
  - apply (f_equal (@length _)) in H. now rewrite !length_map in H.
  - intros idx Hin Hnone.
    apply (in_map ext_id2label) in Hin. rewrite H, Hnone in Hin.
    apply in_map_iff in Hin as [label [Hl _]]. discriminate.
Qed.

(** X9.  How the extraction step of the demo ends.  The labels are looked
    up first: the step raises [KeyError] for the first predicted index that
    the label dictionary lacks, whatever the lengths.  When every index has
    a label, the tags are the labels without the first and the last one, and
    [decoding] raises its assertion unless the predictions are exactly two
    more than the characters of the text; when they are, the step returns
    what [decoding] returns on those tags. *)
Theorem extract_outcome (get_entities : list tag -> list entity)
    (ext_id2label : Z -> option tag) (input_text : Py.str)
    (predictions : list Z) :
  match extract get_entities ext_id2label input_text predictions with
  | inl (KeyError key) =>
      exists before after,
        predictions = before ++ key :: after
        /\ ext_id2label key = None
        /\ forall idx, In idx before -> ext_id2label idx <> None
  | inl (Raised e) =>
      (forall idx, In idx predictions -> ext_id2label idx <> None)
      /\ length input_text <> length predictions - 2
      /\ e = AssertionError
               (mismatch_msg (length input_text) (length predictions - 2))
  | inr aps =>
      (forall idx, In idx predictions -> ext_id2label idx <> None)
      /\ length input_text = length predictions - 2
      /\ exists labels,
           map ext_id2label predictions = map Some labels
           /\ decoding get_entities input_text (Py.slice labels 1 (-1)) = inr aps
  end.
Proof.
  unfold extract.
  pose proof (labels_of_first ext_id2label predictions) as H.
  destruct (labels_of ext_id2label predictions) as [[key | e] | labels];
    [exact H | contradiction |].
  destruct (all_labelled _ _ _ H) as [Hlen Hall].
  destruct (decoding get_entities input_text (Py.slice labels 1 (-1)))
    as [[msg] | aps] eqn:Hdec.
  - unfold decoding in Hdec. rewrite length_slice_inner, Hlen in Hdec.
    destruct (Nat.eqb_spec (length input_text) (length predictions - 2))
      as [E | E]; [discriminate |].
    inversion Hdec. now repeat split.
  - split; [exact Hall |]. split.
    + unfold decoding in Hdec. rewrite length_slice_inner, Hlen in Hdec.
      destruct (Nat.eqb_spec (length input_text) (length predictions - 2))
        as [E | E]; [exact E | discriminate].
    + now exists labels.
Qed.
